(** * Bulk management of Lambda reserved concurrency (src/hello.py)

    A shallow embedding of the command line tool of [src/hello.py] and the
    properties its specification states about it.

    What is modelled, and how:
    - the parsed command line ([argparse.Namespace]) is the record [Args];
      argparse's own rejections (unknown flag, bad [--concurrency]) happen
      before [main] sees anything and are outside the model;
    - [csv.reader] is Python's library: the rows it yields (a list of
      fields per line) are the input, held by [Env];
    - the SDK client is an opaque collaborator: a state and a step function
      answering each [Call] with a response or an exception; every call that
      reaches it is appended to a trace.  [make_client] is taken to have
      returned that client;
    - the thread pool runs every submitted task once, in an order the code
      does not control: [Sched] picks the order in which calls reach the
      client and the order in which [as_completed] hands the futures back;
    - Python [str] is [string]: characters are code points below 256. *)

From Stdlib Require Import ZArith Ascii Strings.String.
From stdpp Require Import base option list strings pretty gmap.

Local Open Scope Z_scope.
Local Open Scope string_scope.

(** ** Python string and integer primitives used by the script *)

Module Py.

(** [str.isspace] on code points below 256: TAB..CR, FS..US, SPACE, NEL
    and NBSP. *)
Definition isspace (c : ascii) : bool :=
  let n := nat_of_ascii c in
  ((9 <=? n) && (n <=? 13) || (28 <=? n) && (n <=? 32)
   || (n =? 133) || (n =? 160))%nat.

Fixpoint lstrip (s : string) : string :=
  match s with
  | String c s' => if isspace c then lstrip s' else s
  | EmptyString => EmptyString
  end.

Definition rstrip (s : string) : string :=
  String.rev (lstrip (String.rev s)).

(** [s.strip()] *)
Definition strip (s : string) : string := rstrip (lstrip s).

(** [str.lower] on one code point below 256: A..Z and the Latin-1 capitals
    (all of 192..222 but the multiplication sign 215) move up by 32. *)
Definition lower_char (c : ascii) : ascii :=
  let n := nat_of_ascii c in
  if ((65 <=? n) && (n <=? 90)
      || (192 <=? n) && (n <=? 222) && negb (n =? 215))%nat
  then ascii_of_nat (n + 32) else c.

(** [s.lower()] *)
Fixpoint lower (s : string) : string :=
  match s with
  | String c s' => String (lower_char c) (lower s')
  | EmptyString => EmptyString
  end.

(** [s.startswith(p)] *)
Definition startswith (s p : string) : bool := String.prefix p s.

(** Truth value of a string: [not s] is [negb (truthy s)]. *)
Definition truthy (s : string) : bool :=
  match s with EmptyString => false | _ => true end.

(** [sep.join(l)] *)
Fixpoint join (sep : string) (l : list string) : string :=
  match l with
  | [] => ""
  | [x] => x
  | x :: l' => x ++ sep ++ join sep l'
  end.

(** [str(n)] for an integer. *)
Definition str (n : Z) : string := pretty n.

(** An [Optional] inside an f-string: [None] prints as the word. *)
Definition str_opt {A} (f : A → string) (o : option A) : string :=
  match o with Some a => f a | None => "None" end.

Definition digit_of (c : ascii) : option Z :=
  let n := nat_of_ascii c in
  if ((48 <=? n) && (n <=? 57))%nat then Some (Z.of_nat (n - 48)) else None.

(** The digits of a decimal literal after its first digit: single
    underscores are allowed between digits only. *)
Fixpoint int_digits (acc : Z) (after_underscore : bool) (s : string)
  : option Z :=
  match s with
  | EmptyString => if after_underscore then None else Some acc
  | String c s' =>
      if Ascii.eqb c "_" then
        if after_underscore then None else int_digits acc true s'
      else
        match digit_of c with
        | Some d => int_digits (10 * acc + d) false s'
        | None => None
        end
  end.

Definition int_unsigned (s : string) : option Z :=
  match s with
  | String c s' =>
      match digit_of c with
      | Some d => int_digits d false s'
      | None => None
      end
  | EmptyString => None
  end.

(** [int(s)] in base 10 on a string that carries no surrounding white
    space: [None] stands for [ValueError].  The interpreter's configurable
    limit on the number of digits is not modelled: it never applies to a
    text of at most 640 digits, and a longer text may be refused by the
    interpreter where this function returns a value. *)
Definition int (s : string) : option Z :=
  match s with
  | String "-" s' => Z.opp <$> int_unsigned s'
  | String "+" s' => int_unsigned s'
  | _ => int_unsigned s
  end.

End Py.

(** ** Data model *)

(** A target: [(function_name, value_or_None)]. *)
Definition Target : Type := string * option Z.

(** The parsed command line, with the attribute names of the namespace. *)
Record Args := {
  function : option string;
  file : option string;
  show : bool;
  remove : bool;
  throttle : bool;
  do_set : bool;
  concurrency : option Z;
  region : option string;
  dry_run : bool
}.

(** What the script reads: the rows [csv.reader] yields on standard input,
    and for a path either the rows of the file or nothing when [open]
    raises.  The reader is taken to yield all of its rows: an error raised
    while it iterates (a byte sequence that does not decode, a field the
    csv module refuses) is outside the model. *)
Record Env := {
  stdin_rows : list (list string);
  open_rows : string → option (list (list string))
}.

(** The three SDK operations, with their keyword arguments. *)
Inductive Call :=
| Get (FunctionName : string)
| Put (FunctionName : string) (ReservedConcurrentExecutions : Z)
| Delete (FunctionName : string).

(** Exceptions: [ClientError] carries the error code and message of its
    response and its text; [OSError] is a failed [open]; anything else is
    kept by its text. *)
Inductive Exn :=
| ClientError (code msg : option string) (text : string)
| OSError (path : string)
| OtherError (text : string).

Definition exn_text (e : Exn) : string :=
  match e with
  | ClientError _ _ t => t
  | OSError p => p
  | OtherError t => t
  end.

(** The answer of the client to one call: an exception, or the response,
    of which only the [ReservedConcurrentExecutions] entry is ever read. *)
Definition Response : Type := Exn + option Z.

Definition failed (r : Response) : bool :=
  match r with inl _ => true | inr _ => false end.

Definition is_client_error (e : Exn) : bool :=
  match e with ClientError _ _ _ => true | _ => false end.

(** The four messages the script terminates with:
    - "Invalid concurrency value (not an integer): ..." with the text,
    - "No function names provided. Use --function or --file ...",
    - "You must specify exactly one mode: --remove, --throttle, or --set
      (or use --show).",
    - "--set requires a concurrency value per-row or via --concurrency;
      missing for: ..." with the names it lists. *)
Inductive Message :=
| InvalidConcurrency (s : string)
| NoFunctionNames
| ExactlyOneMode
| MissingValues (miss_str : string).

(** The argument of [SystemExit]: a status, or a text (printed on the
    error stream, status 1). *)
Inductive Payload :=
| Status (code : Z)
| Text (m : Message).

Inductive Raised :=
| SystemExit (p : Payload)
| Unhandled (e : Exn).

(** How the process ends. *)
Inductive Exit :=
| Returned
| Raising (r : Raised).

Definition exit_status (x : Exit) : Z :=
  match x with
  | Returned => 0
  | Raising (SystemExit (Status c)) => c
  | Raising (SystemExit (Text _)) => 1
  | Raising (Unhandled _) => 1
  end.

(** Whether the process ended on one of the configuration messages. *)
Definition config_error (x : Exit) : bool :=
  match x with Raising (SystemExit (Text _)) => true | _ => false end.

(** Code that may raise. *)
Inductive result (A : Type) :=
| Ok (a : A)
| Raise (r : Raised).
Arguments Ok {A} a.
Arguments Raise {A} r.

Definition result_bind {A B} (f : A → result B) (m : result A) : result B :=
  match m with Ok a => f a | Raise r => Raise r end.

Notation "x <-! m ; k" := (result_bind (fun x => k) m)
  (at level 20, m at level 100, k at level 200, right associativity,
   only parsing).

(** ** Target resolution *)

Definition parse_int_or_none (s : option string) : result (option Z) :=
  match s with
  | None => Ok None
  | Some s =>
      let s := Py.strip s in
      if String.eqb s "" then Ok None
      else match Py.int s with
           | Some n => Ok (Some n)
           | None => Raise (SystemExit (Text (InvalidConcurrency s)))
           end
  end.

(** The header test of [add_row], on the trimmed name. *)
Definition skipped (name : string) : bool :=
  negb (Py.truthy name) || Py.startswith (Py.lower name) "function".

(** [add_row], with the list [rows] it appends to passed along. *)
Definition add_row (args : Args) (read_values : bool) (rows : list Target)
    (name : string) (val_text : option string) : result (list Target) :=
  let name := Py.strip name in
  if skipped name then Ok rows
  else if read_values then
    per_row <-! parse_int_or_none val_text;
    match per_row with
    | Some v => Ok (rows ++ [(name, Some v)])%list
    | None => Ok (rows ++ [(name, concurrency args)])%list
    end
  else Ok (rows ++ [(name, None)])%list.

(** The loop over the reader, the same for both sources. *)
Fixpoint read_rows (args : Args) (read_values : bool)
    (reader : list (list string)) (rows : list Target)
  : result (list Target) :=
  match reader with
  | [] => Ok rows
  | [] :: reader' => read_rows args read_values reader' rows
  | (fn :: more) :: reader' =>
      let v := head more in
      rows' <-! add_row args read_values rows fn v;
      read_rows args read_values reader' rows'
  end.

Definition opt_truthy (o : option string) : bool :=
  match o with Some s => Py.truthy s | None => false end.

Definition iter_targets (args : Args) (env : Env) (read_values : bool)
  : result (list Target) :=
  rows <-! (if opt_truthy (function args)
            then add_row args read_values [] (default "" (function args)) None
            else Ok []);
  rows <-! (if opt_truthy (file args) then
              let path := default "" (file args) in
              if String.eqb path "-" then
                read_rows args read_values (stdin_rows env) rows
              else
                match open_rows env path with
                | Some reader => read_rows args read_values reader rows
                | None => Raise (Unhandled (OSError path))
                end
            else Ok rows);
  match rows with
  | [] => Raise (SystemExit (Text NoFunctionNames))
  | _ => Ok rows
  end.

(** ** The client and the worker pool *)

(** The client's state and the calls that reached it so far, each with the
    answer it got. *)
Record World (CS : Type) := {
  client : CS;
  trace : list (Call * Response)
}.
Arguments client {CS} w.
Arguments trace {CS} w.

(** The choices of the pool that the code leaves open.  At each step the
    next pick, taken modulo the number of futures still waiting, names the
    one that goes next; picks that run out count as 0, the order of
    submission. *)
Record Sched := {
  started : list nat;
  completed : list nat
}.

Definition fifo : Sched := {| started := []; completed := [] |}.

Fixpoint pick_from {A} (n : nat) (picks : list nat) (l : list A) : list A :=
  match n with
  | O => []
  | S n' =>
      let k := (hd 0 picks mod length l)%nat in
      match l !! k with
      | Some x => x :: pick_from n' (tl picks) (delete k l)
      | None => []
      end
  end.

Definition permute {A} (picks : list nat) (l : list A) : list A :=
  pick_from (length l) picks l.

Section Program.

Context {CS : Type}.

(** The SDK client: how it answers a call in a state. *)
Variable sdk : CS → Call → CS * Response.

(** A submitted callable: it runs against the client and returns a value
    or raises; the future keeps either. *)
Definition Task (R : Type) : Type := World CS → World CS * (Exn + R).

Definition invoke (c : Call) (w : World CS) : World CS * Response :=
  let (cs', r) := sdk (client w) c in
  ({| client := cs'; trace := (trace w ++ [(c, r)])%list |}, r).

Definition set_reserved (function_name : string) (value : Z) : Task string :=
  fun w =>
    let (w', r) := invoke (Put function_name value) w in
    (w', match r with
         | inl e => inl e
         | inr _ => inr ("[SET   ] " ++ function_name
                         ++ ": ReservedConcurrency=" ++ Py.str value)
         end).

Definition delete_concurrency (function_name : string) : Task string :=
  fun w =>
    let (w', r) := invoke (Delete function_name) w in
    (w', match r with
         | inl e => inl e
         | inr _ => inr ("[REMOVE] " ++ function_name
                         ++ ": ReservedConcurrency removed")
         end).

Definition get_reserved_concurrency (function_name : string)
  : Task (string * string) :=
  fun w =>
    let (w', r) := invoke (Get function_name) w in
    (w', match r with
         | inr None =>
             inr (function_name, "NONE (unlimited; uses account pool)")
         | inr (Some rce) =>
             if (rce =? 0)%Z then inr (function_name, "0 (DISABLED)")
             else inr (function_name, Py.str rce)
         | inl (ClientError code msg _) =>
             inr (function_name,
                  "ERROR: " ++ Py.str_opt id code ++ " - " ++ Py.str_opt id msg)
         | inl e => inl e
         end).

(** The tasks in the order in which they run, each against the state the
    one before left; [K] is what the dictionary of futures keeps. *)
Fixpoint run_tasks {R K} (tasks : list (Task R * K)) (w : World CS)
  : World CS * list (K * (Exn + R)) :=
  match tasks with
  | [] => (w, [])
  | (t, k) :: rest =>
      let (w1, r) := t w in
      let (w2, rs) := run_tasks rest w1 in
      (w2, (k, r) :: rs)
  end.

(** [ThreadPoolExecutor]: every submitted task runs, whatever the others
    did; the result is the futures as [as_completed] yields them. *)
Definition pool {R K} (sched : Sched) (tasks : list (Task R * K))
    (w : World CS) : World CS * list (K * (Exn + R)) :=
  let (w', done) := run_tasks (permute (started sched) tasks) w in
  (w', permute (completed sched) done).

(** One run of the program. *)
Record Run := {
  world : World CS;
  stdout : list string;
  stderr : list string;
  exit : Exit
}.

(** The loop of the show branch: [fut.result()] is not guarded, so an
    exception other than the [ClientError] handled in the task ends it. *)
Fixpoint show_results (done : list (string * (Exn + string * string)))
    (out : list string) : list string * Exit :=
  match done with
  | [] => (out, Returned)
  | (_, inl e) :: _ => (out, Raising (Unhandled e))
  | (_, inr (fn, status)) :: rest =>
      let line := "[SHOW  ] " ++ fn ++ ": " ++ status in
      show_results rest (out ++ [line])%list
  end.

(** The loop of the three writing modes; [who] is what follows the error
    tag.  Returns both streams and [had_error]. *)
Fixpoint write_results {K} (who : K → string)
    (done : list (K * (Exn + string))) (out err : list string)
    (had_error : bool) : list string * list string * bool :=
  match done with
  | [] => (out, err, had_error)
  | (_, inr line) :: rest =>
      write_results who rest (out ++ [line])%list err had_error
  | (k, inl e) :: rest =>
      let line := "[ERROR ] " ++ who k ++ ": " ++ exn_text e in
      write_results who rest out (err ++ [line])%list true
  end.

Definition finish {K} (who : K → string) (w : World CS)
    (done : list (K * (Exn + string))) : Run :=
  let '(out, err, had_error) := write_results who done [] [] false in
  {| world := w; stdout := out; stderr := err;
     exit := if had_error then Raising (SystemExit (Status 1))
             else Returned |}.

Definition stop (w : World CS) (r : Raised) : Run :=
  {| world := w; stdout := []; stderr := []; exit := Raising r |}.

Definition printed (w : World CS) (lines : list string) : Run :=
  {| world := w; stdout := lines; stderr := []; exit := Returned |}.

Definition mode_flags (args : Args) : list (string * bool) :=
  [("remove", remove args); ("throttle", throttle args);
   ("set", do_set args)].

Definition chosen (args : Args) : list string :=
  (filter (fun kv => kv.2 = true) (mode_flags args)).*1.

(** [missing = [fn for fn, v in targets if v is None]] *)
Definition missing (targets : list Target) : list string :=
  (filter (fun t => t.2 = None) targets).*1.

Definition miss_str (missing : list string) : string :=
  Py.join ", " (take 5 missing)
  ++ (if (5 <? length missing)%nat then "..." else "").

(** Past the check on [missing] every value is an integer: the targets
    with their values as such. *)
Definition valued (targets : list Target) : list (string * Z) :=
  omap (fun t => v ← t.2; Some (t.1, v)) targets.

Definition main (args : Args) (env : Env) (sched : Sched) (w : World CS)
  : Run :=
  if show args then
    match iter_targets args env false with
    | Raise r => stop w r
    | Ok targets =>
        let (w', done) :=
          pool sched
            (map (fun t => (get_reserved_concurrency t.1, t.1)) targets) w in
        let (out, x) := show_results done [] in
        {| world := w'; stdout := out; stderr := []; exit := x |}
    end
  else
    match chosen args with
    | [mode] =>
        if String.eqb mode "remove" then
          match iter_targets args env false with
          | Raise r => stop w r
          | Ok targets =>
              if dry_run args then
                printed w (map (fun t => "[DRYRUN REMOVE] " ++ t.1) targets)
              else
                let (w', done) :=
                  pool sched
                    (map (fun t => (delete_concurrency t.1, t.1)) targets) w in
                finish id w' done
          end
        else if String.eqb mode "throttle" then
          match iter_targets args env false with
          | Raise r => stop w r
          | Ok targets =>
              if dry_run args then
                printed w
                  (map (fun t => "[DRYRUN SET] " ++ t.1 ++ " -> 0") targets)
              else
                let (w', done) :=
                  pool sched
                    (map (fun t => (set_reserved t.1 0, t.1)) targets) w in
                finish id w' done
          end
        else if String.eqb mode "set" then
          match iter_targets args env true with
          | Raise r => stop w r
          | Ok targets =>
              match missing targets with
              | _ :: _ =>
                  stop w (SystemExit
                            (Text (MissingValues (miss_str (missing targets)))))
              | [] =>
                  if dry_run args then
                    printed w
                      (map (fun t : string * Z =>
                              if (t.2 =? -1)%Z then "[DRYRUN REMOVE] " ++ t.1
                              else "[DRYRUN SET] " ++ t.1 ++ " -> "
                                   ++ Py.str t.2)
                         (valued targets))
                  else
                    let (w', done) :=
                      pool sched
                        (map (fun t : string * Z =>
                                if (t.2 =? -1)%Z
                                then (delete_concurrency t.1, t)
                                else (set_reserved t.1 t.2, t))
                           (valued targets)) w in
                    finish (fun t : string * Z =>
                              t.1 ++ " (target " ++ Py.str t.2 ++ ")") w' done
              end
          end
        else printed w []
    | _ => stop w (SystemExit (Text ExactlyOneMode))
    end.

End Program.

Arguments world {CS} r.
Arguments stdout {CS} r.
Arguments stderr {CS} r.
Arguments exit {CS} r.

(** ** A sample client

    An account as a finite map from the functions that exist to their
    reserved concurrency, if any.  A call on a function that does not
    exist is answered by a [ClientError]; a connection that is down
    raises an error of another class. *)

Module Sample.

Record Account := {
  functions : gmap string (option Z);
  online : bool
}.

Definition not_found (op fn : string) : Exn :=
  ClientError (Some "ResourceNotFoundException")
    (Some ("Function not found: " ++ fn))
    ("An error occurred (ResourceNotFoundException) when calling the "
     ++ op ++ " operation: Function not found: " ++ fn).

Definition update (a : Account) (m : gmap string (option Z)) : Account :=
  {| functions := m; online := online a |}.

Definition sdk (a : Account) (c : Call) : Account * Response :=
  if negb (online a)
  then (a, inl (OtherError "Could not connect to the endpoint URL"))
  else
    match c with
    | Get fn =>
        match functions a !! fn with
        | Some rce => (a, inr rce)
        | None => (a, inl (not_found "GetFunctionConcurrency" fn))
        end
    | Put fn v =>
        match functions a !! fn with
        | Some _ => (update a (<[fn := Some v]> (functions a)), inr (Some v))
        | None => (a, inl (not_found "PutFunctionConcurrency" fn))
        end
    | Delete fn =>
        match functions a !! fn with
        | Some _ => (update a (<[fn := None]> (functions a)), inr None)
        | None => (a, inl (not_found "DeleteFunctionConcurrency" fn))
        end
    end.

Definition account (l : list (string * option Z)) : World Account :=
  {| client := {| functions := list_to_map l; online := true |};
     trace := [] |}.

Definition offline : World Account :=
  {| client := {| functions := ∅; online := false |}; trace := [] |}.

(** An environment whose standard input yields the given rows. *)
Definition on_stdin (rows : list (list string)) : Env :=
  {| stdin_rows := rows; open_rows := fun _ => None |}.

(** The scenario of the specification: three rows on standard input,
    Set mode, default 3, and an account that has [a] and [b] but not [c]. *)
Definition set_args : Args :=
  {| function := None; file := Some "-"; show := false; remove := false;
     throttle := false; do_set := true; concurrency := Some 3;
     region := None; dry_run := false |}.

Definition three_rows : Env := on_stdin [["a"; "5"]; ["b"]; ["c"; "-1"]].

Definition two_functions : World Account :=
  account [("a", None); ("b", Some 1)].

(** [--show --function f], with every other flag given as well. *)
Definition show_args : Args :=
  {| function := Some "f"; file := None; show := true; remove := true;
     throttle := true; do_set := true; concurrency := Some 7;
     region := None; dry_run := true |}.

Definition no_input : Env := on_stdin [].

(** [--show --function f] *)
Definition show_f : Args :=
  {| function := Some "f"; file := None; show := true; remove := false;
     throttle := false; do_set := false; concurrency := None;
     region := None; dry_run := false |}.

(** [--set --function f --dry-run] *)
Definition dry_set_f : Args :=
  {| function := Some "f"; file := None; show := false; remove := false;
     throttle := false; do_set := true; concurrency := None;
     region := None; dry_run := true |}.

(** [--remove --file - --dry-run] *)
Definition dry_remove : Args :=
  {| function := None; file := Some "-"; show := false; remove := true;
     throttle := false; do_set := false; concurrency := None;
     region := None; dry_run := true |}.

(** [--throttle --file - --concurrency 9] *)
Definition throttle_args : Args :=
  {| function := None; file := Some "-"; show := false; remove := false;
     throttle := true; do_set := false; concurrency := Some 9;
     region := None; dry_run := false |}.

(** A file with a header, a blank line, a line of spaces, a padded name,
    a value that is no integer and a second header-like name. *)
Definition mixed_rows : Env :=
  on_stdin [["function"; "concurrency"]; []; ["  "]; [" a "; "5"];
            ["b"; "oops"]; ["FUNCTION-x"; "1"]].

(** [--remove --function " Function-A"] *)
Definition remove_header_like : Args :=
  {| function := Some " Function-A"; file := None; show := false;
     remove := true; throttle := false; do_set := false;
     concurrency := None; region := None; dry_run := false |}.

(** [--set --file -] without a default. *)
Definition set_file : Args :=
  {| function := None; file := Some "-"; show := false; remove := false;
     throttle := false; do_set := true; concurrency := None;
     region := None; dry_run := false |}.

Definition low_rows : Env := on_stdin [["a"; "-2"]; ["b"; "0"]].

Definition seven_names : Env :=
  on_stdin [["a"]; ["b"]; ["c"; "1"]; ["d"]; ["e"]; ["f"]; ["g"]; ["h"]].

End Sample.

(** ** Notions the properties are stated with *)

(** The mode in effect: [--show] wins, otherwise the one flag chosen. *)
Definition mode_of (args : Args) : option string :=
  if show args then Some "show"
  else match chosen args with [mode] => Some mode | _ => None end.

(** What a run added to the trace it started from. *)
Definition issued {CS} (w : World CS) (r : Run (CS := CS))
  : list (Call * Response) :=
  drop (length (trace w)) (trace (world r)).

Definition any_failed (l : list (Call * Response)) : bool :=
  existsb (fun cr => failed cr.2) l.

(** Whether every failure is a [ClientError]. *)
Definition only_client_errors (l : list (Call * Response)) : bool :=
  forallb (fun cr => match cr.2 with
                     | inl e => is_client_error e
                     | inr _ => true
                     end) l.

(** Whether a future holds an exception. *)
Definition raised {R} (r : Exn + R) : bool :=
  match r with inl _ => true | inr _ => false end.

Definition is_get (c : Call) : bool :=
  match c with Get _ => true | _ => false end.

(** The rows [iter_targets] goes through: the name given by [--function]
    as a row of its own, then the rows of the file. *)
Definition input_rows (args : Args) (env : Env)
  : result (list (list string)) :=
  let first := if opt_truthy (function args)
               then [[default "" (function args)]] else [] in
  if opt_truthy (file args) then
    let path := default "" (file args) in
    if String.eqb path "-" then Ok (first ++ stdin_rows env)%list
    else match open_rows env path with
         | Some reader => Ok (first ++ reader)%list
         | None => Raise (Unhandled (OSError path))
         end
  else Ok first.

Definition row_name (parts : list string) : string :=
  Py.strip (hd "" parts).

Definition row_text (parts : list string) : option string :=
  head (tail parts).

(** Following the specification's words: a row is left out when it is
    blank, when its name is empty after trimming, or when its name starts
    with "function" whatever the case of the letters. *)
Definition spec_excluded (parts : list string) : bool :=
  match parts with
  | [] => true
  | _ =>
      String.eqb (row_name parts) ""
      || String.prefix "function" (Py.lower (row_name parts))
  end.

Definition spec_included (reader : list (list string))
  : list (list string) :=
  filter (fun parts => spec_excluded parts = false) reader.

(** The value of a row taken in: its own when it has one, else the
    default of [--concurrency]. *)
Definition spec_value (args : Args) (parts : list string) : option Z :=
  match parse_int_or_none (row_text parts) with
  | Ok (Some v) => Some v
  | _ => concurrency args
  end.

Definition value_ok (parts : list string) : bool :=
  match parse_int_or_none (row_text parts) with
  | Ok _ => true
  | Raise _ => false
  end.

(** The targets the rows resolve to, in the words of the specification. *)
Definition spec_targets (args : Args) (read_values : bool)
    (reader : list (list string)) : list Target :=
  map (fun parts => (row_name parts,
                     if read_values then spec_value args parts else None))
    (spec_included reader).

(** The action Set mode takes on a resolved target. *)
Definition set_action (t : string * Z) : Call :=
  if (t.2 =? -1)%Z then Delete t.1 else Put t.1 t.2.

(** Only Set mode reads the values of the rows. *)
Definition reads_values (mode : string) : bool := String.eqb mode "set".

(** Following the specification's table of modes: the calls a live run
    makes for its targets. *)
Definition planned (mode : string) (targets : list Target) : list Call :=
  if String.eqb mode "show" then (fun t => Get t.1) <$> targets
  else if String.eqb mode "remove" then (fun t => Delete t.1) <$> targets
  else if String.eqb mode "throttle" then (fun t => Put t.1 0) <$> targets
  else if String.eqb mode "set" then set_action <$> valued targets
  else [].

(** The lines a dry run prints for its targets. *)
Definition dry_lines (mode : string) (targets : list Target)
  : list string :=
  if String.eqb mode "remove"
  then (fun t => "[DRYRUN REMOVE] " ++ t.1) <$> targets
  else if String.eqb mode "throttle"
  then (fun t => "[DRYRUN SET] " ++ t.1 ++ " -> 0") <$> targets
  else (fun t : string * Z =>
          if (t.2 =? -1)%Z then "[DRYRUN REMOVE] " ++ t.1
          else "[DRYRUN SET] " ++ t.1 ++ " -> " ++ Py.str t.2)
         <$> valued targets.

(** ** Further notions, for the properties beyond the specification's *)


(** White space only. *)
Fixpoint all_space (s : string) : bool :=
  match s with
  | String c s' => Py.isspace c && all_space s'
  | EmptyString => true
  end.

(** What the show loop prints for a read and its answer; nothing when
    the exception is one that the task lets through. *)
Definition show_line (cr : Call * Response) : option string :=
  match cr with
  | (Get fn, inr None) =>
      Some ("[SHOW  ] " ++ fn ++ ": NONE (unlimited; uses account pool)")
  | (Get fn, inr (Some rce)) =>
      Some ("[SHOW  ] " ++ fn ++ ": "
            ++ (if (rce =? 0)%Z then "0 (DISABLED)" else Py.str rce))
  | (Get fn, inl (ClientError code msg _)) =>
      Some ("[SHOW  ] " ++ fn ++ ": ERROR: " ++ Py.str_opt id code
            ++ " - " ++ Py.str_opt id msg)
  | _ => None
  end.

(** What a writing mode prints on the output stream for a call that
    succeeded. *)
Definition stdout_line (cr : Call * Response) : option string :=
  match cr with
  | (Put fn v, inr _) =>
      Some ("[SET   ] " ++ fn ++ ": ReservedConcurrency=" ++ Py.str v)
  | (Delete fn, inr _) =>
      Some ("[REMOVE] " ++ fn ++ ": ReservedConcurrency removed")
  | _ => None
  end.

(** What a writing mode prints on the error stream for a call that
    failed; Set mode adds the value of the target, -1 for a delete. *)
Definition stderr_line (mode : string) (cr : Call * Response)
  : option string :=
  let target v := if String.eqb mode "set"
                  then " (target " ++ Py.str v ++ ")" else "" in
  match cr with
  | (Put fn v, inl e) =>
      Some ("[ERROR ] " ++ fn ++ target v ++ ": " ++ exn_text e)
  | (Delete fn, inl e) =>
      Some ("[ERROR ] " ++ fn ++ target (-1)%Z ++ ": " ++ exn_text e)
  | _ => None
  end.

(** The same command line with another [--concurrency]. *)
Definition with_concurrency (c : option Z) (args : Args) : Args :=
  {| function := function args; file := file args; show := show args;
     remove := remove args; throttle := throttle args;
     do_set := do_set args; concurrency := c; region := region args;
     dry_run := dry_run args |}.

(** The same command line with or without [--dry-run]. *)
Definition with_dry_run (b : bool) (args : Args) : Args :=
  {| function := function args; file := file args; show := show args;
     remove := remove args; throttle := throttle args;
     do_set := do_set args; concurrency := concurrency args;
     region := region args; dry_run := b |}.

(** The line a dry run prints in place of a call. *)
Definition dry_line (c : Call) : option string :=
  match c with
  | Delete fn => Some ("[DRYRUN REMOVE] " ++ fn)
  | Put fn v => Some ("[DRYRUN SET] " ++ fn ++ " -> " ++ Py.str v)
  | Get _ => None
  end.

(** More command lines to run the properties on. *)
Module Inputs.

(** [--remove --file funcs.csv] *)
Definition remove_file : Args :=
  {| function := None; file := Some "funcs.csv"; show := false;
     remove := true; throttle := false; do_set := false;
     concurrency := None; region := None; dry_run := false |}.

(** [--remove --file -] *)
Definition remove_stdin : Args :=
  {| function := None; file := Some "-"; show := false; remove := true;
     throttle := false; do_set := false; concurrency := None;
     region := None; dry_run := false |}.

(** [--function f], without a mode. *)
Definition no_mode : Args :=
  {| function := Some "f"; file := None; show := false; remove := false;
     throttle := false; do_set := false; concurrency := None;
     region := None; dry_run := false |}.

(** [--set --function " a " --concurrency 7] *)
Definition set_a7 : Args :=
  {| function := Some " a "; file := None; show := false; remove := false;
     throttle := false; do_set := true; concurrency := Some 7;
     region := None; dry_run := false |}.

(** [--set --file - --concurrency -1] *)
Definition set_minus_one : Args :=
  {| function := None; file := Some "-"; show := false; remove := false;
     throttle := false; do_set := true; concurrency := Some (-1);
     region := None; dry_run := false |}.

(** [--show --file -] *)
Definition show_stdin : Args :=
  {| function := None; file := Some "-"; show := true; remove := false;
     throttle := false; do_set := false; concurrency := None;
     region := None; dry_run := false |}.

Definition names_only : Env := Sample.on_stdin [["a"]; ["b"]].

Definition names_with_values : Env :=
  Sample.on_stdin [["a"; "oops"]; ["b"; "4"; "x"]].

(** The first column of [Sample.mixed_rows]. *)
Definition mixed_names : Env :=
  Sample.on_stdin [["function"]; []; ["  "]; [" a "]; ["b"];
                   ["FUNCTION-x"]].

End Inputs.

Local Open Scope list_scope.

(** ** The model at work *)

Example int_examples :
  Py.int <$> ["-1"; "+5"; "1_000"; "007"; ""; "-"; "1__0"; "_1"; "5.0"; "0x1"]
  = [Some (-1); Some 5; Some 1000; Some 7; None; None; None; None; None;
     None]%Z.
Proof. reflexivity. Qed.

Example strip_lower_example :
  Py.lower (Py.strip "  Function Name ") = "function name".
Proof. reflexivity. Qed.

Example parse_examples :
  parse_int_or_none <$> [None; Some "  "; Some " 12 "; Some "x"]
  = [Ok None; Ok None; Ok (Some 12%Z);
     Raise (SystemExit (Text (InvalidConcurrency "x")))].
Proof. reflexivity. Qed.

Example permute_example :
  permute [2; 1]%nat ["a"; "b"; "c"; "d"] = ["c"; "b"; "a"; "d"].
Proof. reflexivity. Qed.

(** The rows of a file with a header: values are read in Set mode only. *)
Example mixed_rows_throttle :
  iter_targets Sample.throttle_args Sample.mixed_rows false
  = Ok [("a", None); ("b", None)].
Proof. reflexivity. Qed.

Example mixed_rows_set :
  iter_targets Sample.set_file Sample.mixed_rows true
  = Raise (SystemExit (Text (InvalidConcurrency "oops"))).
Proof. reflexivity. Qed.

(** The scenario run in the order of submission: [c] does not exist. *)
Example scenario_run :
  let r := main Sample.sdk Sample.set_args Sample.three_rows fifo
             Sample.two_functions in
  (trace (world r)).*1 = [Put "a" 5; Put "b" 3; Delete "c"]%Z
  ∧ stdout r = ["[SET   ] a: ReservedConcurrency=5";
                "[SET   ] b: ReservedConcurrency=3"]
  ∧ exit r = Raising (SystemExit (Status 1)).
Proof. repeat split; reflexivity. Qed.

(** Show mode prints a [ClientError] as a status; an error of another
    class leaves [fut.result()] and ends the run. *)
Example show_client_error :
  let r := main Sample.sdk Sample.show_f Sample.no_input fifo
             Sample.two_functions in
  stdout r = ["[SHOW  ] f: ERROR: ResourceNotFoundException - Function not found: f"]
  ∧ exit r = Returned.
Proof. split; reflexivity. Qed.

Example show_other_error :
  let r := main Sample.sdk Sample.show_f Sample.no_input fifo
             Sample.offline in
  (trace (world r)).*1 = [Get "f"]
  ∧ stdout r = []
  ∧ exit r = Raising (Unhandled
                        (OtherError "Could not connect to the endpoint URL")).
Proof. repeat split; reflexivity. Qed.

(** ** The scheduler only reorders *)

Lemma pick_from_Permutation {A} (n : nat) (picks : list nat) (l : list A) :
  length l = n → pick_from n picks l ≡ₚ l.
Proof.
  revert picks l. induction n as [|n IH]; intros picks l Hn; simpl.
  - by destruct l.
  - assert (Hk : (hd 0 picks mod length l < length l)%nat)
      by (apply Nat.mod_upper_bound; lia).
    destruct (lookup_lt_is_Some_2 _ _ Hk) as [x Hx]. rewrite Hx.
    rewrite IH.
    + symmetry. by apply delete_Permutation.
    + rewrite length_delete by eauto. lia.
Qed.

Lemma permute_Permutation {A} (picks : list nat) (l : list A) :
  permute picks l ≡ₚ l.
Proof. by apply pick_from_Permutation. Qed.

Lemma pick_from_fmap {A B} (f : A → B) n picks (l : list A) :
  pick_from n picks (f <$> l) = f <$> pick_from n picks l.
Proof.
  revert picks l. induction n as [|n IH]; intros picks l; simpl; [done|].
  rewrite length_fmap, list_lookup_fmap.
  destruct (l !! _) as [x|]; simpl; [|done].
  by rewrite <- list_fmap_delete, IH.
Qed.

Lemma permute_fmap {A B} (f : A → B) picks (l : list A) :
  permute picks (f <$> l) = f <$> permute picks l.
Proof. unfold permute. by rewrite length_fmap, pick_from_fmap. Qed.

Lemma permute_fifo {A} (l : list A) : permute [] l = l.
Proof.
  unfold permute. induction l as [|x l IH]; [done|].
  change (pick_from (length (x :: l)) [] (x :: l))
    with (match (x :: l) !! (0 mod length (x :: l))%nat with
          | Some y => y :: pick_from (length l) []
                             (delete (0 mod length (x :: l))%nat (x :: l))
          | None => []
          end).
  rewrite Nat.Div0.mod_0_l. simpl. by rewrite IH.
Qed.

(** ** Target resolution, row by row *)

Lemma skipped_spec_excluded fn more :
  skipped (Py.strip fn) = spec_excluded (fn :: more).
Proof.
  unfold skipped, spec_excluded, row_name, Py.startswith. simpl.
  by destruct (Py.strip fn).
Qed.

Lemma result_bind_Ok {A} (m : result A) : result_bind Ok m = m.
Proof. by destruct m. Qed.

Lemma spec_included_cons parts reader :
  spec_included (parts :: reader)
  = if spec_excluded parts then spec_included reader
    else parts :: spec_included reader.
Proof.
  unfold spec_included. rewrite filter_cons.
  destruct (spec_excluded parts); by case_decide.
Qed.

Lemma read_rows_no_values args reader rows :
  read_rows args false reader rows
  = Ok (rows ++ spec_targets args false reader).
Proof.
  unfold spec_targets. revert rows.
  induction reader as [|parts reader IH]; intros rows; simpl.
  - by rewrite app_nil_r.
  - rewrite spec_included_cons. destruct parts as [|fn more]; [by apply IH|].
    unfold add_row. rewrite (skipped_spec_excluded fn more).
    destruct (spec_excluded (fn :: more)); simpl; [by apply IH|].
    rewrite IH, <- app_assoc. done.
Qed.

Lemma read_rows_values args reader rows :
  forallb value_ok (spec_included reader) = true →
  read_rows args true reader rows
  = Ok (rows ++ spec_targets args true reader).
Proof.
  unfold spec_targets. revert rows.
  induction reader as [|parts reader IH]; intros rows; simpl.
  - by rewrite app_nil_r.
  - rewrite spec_included_cons. destruct parts as [|fn more]; [by apply IH|].
    unfold add_row. rewrite (skipped_spec_excluded fn more).
    destruct (spec_excluded (fn :: more)); simpl; [by apply IH|].
    unfold value_ok, spec_value, row_text. simpl.
    intros [Hv Hrest]%andb_prop.
    destruct (parse_int_or_none (head more)) as [[v|]|]; simpl; try done;
      rewrite (IH _ Hrest), <- app_assoc; done.
Qed.

Lemma read_rows_bad_value args reader rows :
  forallb value_ok (spec_included reader) = false →
  ∃ s, read_rows args true reader rows
       = Raise (SystemExit (Text (InvalidConcurrency s))).
Proof.
  revert rows. induction reader as [|parts reader IH]; intros rows; simpl.
  - done.
  - rewrite spec_included_cons. destruct parts as [|fn more]; [by apply IH|].
    unfold add_row. rewrite (skipped_spec_excluded fn more).
    destruct (spec_excluded (fn :: more)); simpl; [by apply IH|].
    unfold value_ok at 1, row_text, parse_int_or_none. simpl.
    destruct (head more) as [s|]; simpl; [|by apply IH].
    destruct (String.eqb (Py.strip s) ""); simpl; [by apply IH|].
    destruct (Py.int (Py.strip s)); simpl; [by apply IH|]. eauto.
Qed.

(** Without a value text [add_row] cannot raise. *)
Lemma add_row_no_text args rv rows name :
  ∃ rows', add_row args rv rows name None = Ok rows'.
Proof.
  unfold add_row. destruct (skipped _), rv; simpl; eauto.
Qed.

Lemma iter_targets_rows args env rv :
  iter_targets args env rv
  = (reader <-! input_rows args env;
     rows <-! read_rows args rv reader [];
     match rows with
     | [] => Raise (SystemExit (Text NoFunctionNames))
     | _ => Ok rows
     end).
Proof.
  unfold iter_targets, input_rows.
  destruct (opt_truthy (function args)), (opt_truthy (file args)); simpl;
    try destruct (String.eqb _ "-"); simpl;
    try destruct (open_rows env _); simpl;
    try destruct (add_row_no_text args rv [] (default "" (function args)))
      as [rows ->];
    simpl; done.
Qed.

(** When no value text is malformed, the targets are the rows taken in,
    and there must be one. *)
Lemma iter_targets_spec args env (rv : bool) reader :
  input_rows args env = Ok reader →
  (if rv then forallb value_ok (spec_included reader) else true) = true →
  iter_targets args env rv
  = match spec_targets args rv reader with
    | [] => Raise (SystemExit (Text NoFunctionNames))
    | ts => Ok ts
    end.
Proof.
  intros Hrows Hok. rewrite iter_targets_rows, Hrows. simpl.
  destruct rv.
  - rewrite read_rows_values by done. simpl.
    by destruct (spec_targets args true reader).
  - rewrite read_rows_no_values. simpl.
    by destruct (spec_targets args false reader).
Qed.

(** ** Boolean folds over zipped and reordered lists *)

Lemma existsb_Permutation {A} (f : A → bool) (l l' : list A) :
  l ≡ₚ l' → existsb f l = existsb f l'.
Proof.
  induction 1 as [|x l l' _ IH|x y l|l l' l'' _ IH1 _ IH2]; simpl.
  - done.
  - by rewrite IH.
  - by destruct (f x), (f y).
  - by rewrite IH1.
Qed.

Lemma forallb_Permutation {A} (f : A → bool) (l l' : list A) :
  l ≡ₚ l' → forallb f l = forallb f l'.
Proof.
  induction 1 as [|x l l' _ IH|x y l|l l' l'' _ IH1 _ IH2]; simpl.
  - done.
  - by rewrite IH.
  - by destruct (f x), (f y).
  - by rewrite IH1.
Qed.

Lemma existsb_zip_with {A B C} (f : A → B → C) (g : C → bool)
    (h : B → bool) (l : list A) (k : list B) :
  length l = length k →
  (∀ x y, g (f x y) = h y) →
  existsb g (zip_with f l k) = existsb h k.
Proof.
  intros Hlen Hg. revert k Hlen.
  induction l as [|x l IH]; intros [|y k] Hlen; simplify_eq/=; [done|].
  by rewrite Hg, IH.
Qed.

Lemma forallb_zip_with {A B C} (f : A → B → C) (g : C → bool)
    (h : B → bool) (l : list A) (k : list B) :
  length l = length k →
  (∀ x y, g (f x y) = h y) →
  forallb g (zip_with f l k) = forallb h k.
Proof.
  intros Hlen Hg. revert k Hlen.
  induction l as [|x l IH]; intros [|y k] Hlen; simplify_eq/=; [done|].
  by rewrite Hg, IH.
Qed.

(** ** What a pool of single-call tasks does *)

Section Runs.

Context {CS : Type}.
Variable sdk : CS → Call → CS * Response.

Lemma invoke_trace c (w : World CS) :
  trace (invoke sdk c w).1 = trace w ++ [(c, (invoke sdk c w).2)].
Proof. unfold invoke. by destruct (sdk (client w) c). Qed.

Lemma run_tasks_cons {R K} (t : Task R) (k : K) rest (w : World CS) :
  run_tasks ((t, k) :: rest) w
  = ((run_tasks rest (t w).1).1, (k, (t w).2) :: (run_tasks rest (t w).1).2).
Proof.
  simpl. destruct (t w) as [w1 r]. simpl.
  by destruct (run_tasks rest w1).
Qed.

(** Tasks that make one call each and turn its answer into their result:
    run in a row they add their calls to the trace, one after the other,
    and leave one future each. *)
Lemma run_tasks_shape {X R K} (mk : X → Task R * K) (call_of : X → Call)
    (post : X → Response → Exn + R) (xs : list X) (w : World CS) :
  (∀ x w, (mk x).1 w = ((invoke sdk (call_of x) w).1,
                        post x (invoke sdk (call_of x) w).2)) →
  ∃ rs, length rs = length xs
        ∧ trace (run_tasks (mk <$> xs) w).1
          = trace w ++ zip (call_of <$> xs) rs
        ∧ (run_tasks (mk <$> xs) w).2
          = zip_with (fun x r => ((mk x).2, post x r)) xs rs.
Proof.
  intros Hmk. revert w. induction xs as [|x xs IH]; intros w.
  - exists []. simpl. by rewrite app_nil_r.
  - destruct (IH (invoke sdk (call_of x) w).1) as (rs & Hl & Ht & Hr).
    exists ((invoke sdk (call_of x) w).2 :: rs).
    rewrite !fmap_cons, (surjective_pairing (mk x)), run_tasks_cons, Hmk.
    simpl. rewrite Ht, Hr, invoke_trace, Hl, <- app_assoc. done.
Qed.

(** The pool does the same in an order of its own, and hands the futures
    back in another. *)
Lemma pool_shape {X R K} (mk : X → Task R * K) (call_of : X → Call)
    (post : X → Response → Exn + R) sched (xs : list X) (w : World CS) :
  (∀ x w, (mk x).1 w = ((invoke sdk (call_of x) w).1,
                        post x (invoke sdk (call_of x) w).2)) →
  ∃ ys rs, ys ≡ₚ xs ∧ length rs = length ys
        ∧ trace (pool sched (mk <$> xs) w).1
          = trace w ++ zip (call_of <$> ys) rs
        ∧ client (pool sched (mk <$> xs) w).1
          = client (run_tasks (mk <$> ys) w).1
        ∧ (pool sched (mk <$> xs) w).2
          ≡ₚ zip_with (fun x r => ((mk x).2, post x r)) ys rs.
Proof.
  intros Hmk. unfold pool. rewrite permute_fmap.
  destruct (run_tasks_shape mk call_of post
              (permute (started sched) xs) w Hmk) as (rs & Hl & Ht & Hr).
  destruct (run_tasks (mk <$> permute (started sched) xs) w)
    as [w' done] eqn:Hrun. simpl in *.
  exists (permute (started sched) xs), rs.
  split; [apply permute_Permutation|]. split; [done|]. split; [done|].
  split; [by rewrite Hrun|].
  rewrite <- Hr. apply permute_Permutation.
Qed.

End Runs.

(** ** The branches of [main] *)

Lemma chosen_cases args mode :
  chosen args = [mode] →
  mode = "remove" ∨ mode = "throttle" ∨ mode = "set".
Proof.
  unfold chosen, mode_flags.
  destruct (remove args), (throttle args), (do_set args);
    intros H; vm_compute in H; simplify_eq; auto.
Qed.

Lemma mode_of_show args :
  mode_of args = Some "show" → show args = true.
Proof.
  unfold mode_of. destruct (show args); [done|].
  destruct (chosen args) as [|m [|]] eqn:Hc; try done.
  intros [= ->]. by destruct (chosen_cases _ _ Hc) as [|[|]].
Qed.

Lemma mode_of_chosen args mode :
  mode_of args = Some mode → mode ≠ "show" →
  show args = false ∧ chosen args = [mode].
Proof.
  unfold mode_of. destruct (show args); [by intros [= <-]|].
  destruct (chosen args) as [|m [|]]; try done. by intros [= ->].
Qed.

Lemma missing_nil_valued (targets : list Target) :
  missing targets = [] →
  (fun t : string * Z => (t.1, Some t.2)) <$> valued targets = targets.
Proof.
  unfold missing, valued. induction targets as [|[fn [v|]] ts IH].
  - done.
  - rewrite filter_cons. case_decide; [done|]. intros Hm.
    csimpl. by rewrite IH.
  - rewrite filter_cons. by case_decide.
Qed.

Lemma missing_names (targets : list Target) :
  ∀ fn, fn ∈ missing targets ↔ (fn, None) ∈ targets.
Proof.
  intros fn. unfold missing. rewrite list_elem_of_fmap. split.
  - intros ([fn' v] & -> & [Hv Hin]%list_elem_of_filter).
    simpl in *. by subst.
  - intros Hin. exists (fn, None). split; [done|].
    by apply list_elem_of_filter.
Qed.

Section Branches.

Context {CS : Type}.
Variable sdk : CS → Call → CS * Response.

Lemma write_results_had_error {K} (who : K → string) done out err h :
  (write_results who done out err h).2
  = h || existsb (fun kr => raised kr.2) done.
Proof.
  revert out err h. induction done as [|[k [e|line]] done IH];
    intros out err h; simpl.
  - by rewrite orb_false_r.
  - rewrite IH. by rewrite orb_true_r.
  - by rewrite IH.
Qed.

Lemma finish_exit {K} (who : K → string) (w : World CS) done :
  world (finish who w done) = w
  ∧ exit (finish who w done)
    = if existsb (fun kr => raised kr.2) done
      then Raising (SystemExit (Status 1)) else Returned.
Proof.
  unfold finish.
  pose proof (write_results_had_error who done [] [] false) as H.
  destruct (write_results who done [] [] false) as [[out err] h].
  simpl in *. by subst.
Qed.

Lemma show_results_no_raise done out :
  forallb (fun kr => negb (raised kr.2)) done = true →
  (show_results done out).2 = Returned.
Proof.
  revert out. induction done as [|[k [e|[fn status]]] done IH];
    intros out; simpl; try done.
  apply IH.
Qed.

(** A live run of one of the writing modes: every target's call is made,
    whatever the others did, and the exit tells whether one failed. *)
Lemma write_pool {X K} (mk : X → Task string * K) (call_of : X → Call)
    (line : X → string) (who : K → string) sched (xs : list X)
    (w : World CS) :
  (∀ x w, (mk x).1 w
          = ((invoke sdk (call_of x) w).1,
             match (invoke sdk (call_of x) w).2 with
             | inl e => inl e
             | inr _ => inr (line x)
             end)) →
  let r := (let (w', done) := pool sched (mk <$> xs) w in
            finish who w' done) in
  trace (world r) = trace w ++ issued w r
  ∧ (issued w r).*1 ≡ₚ call_of <$> xs
  ∧ exit r = if any_failed (issued w r)
             then Raising (SystemExit (Status 1)) else Returned.
Proof.
  intros Hmk.
  destruct (pool_shape sdk mk call_of
              (fun x r => match r with
                          | inl e => inl e
                          | inr _ => inr (line x)
                          end) sched xs w Hmk)
    as (ys & rs & Hperm & Hlen & Htrace & _ & Hdone).
  destruct (pool sched (mk <$> xs) w) as [w' done]. simpl in *.
  destruct (finish_exit who w' done) as [Hw Hx].
  assert (Hissued : issued w (finish who w' done) = zip (call_of <$> ys) rs).
  { unfold issued. by rewrite Hw, Htrace, drop_app_length. }
  rewrite Hissued, Hw. split; [done|]. split.
  - rewrite fst_zip by (rewrite length_fmap; lia). by rewrite Hperm.
  - rewrite Hx, (existsb_Permutation _ _ _ Hdone).
    unfold any_failed.
    rewrite (existsb_zip_with _ _ failed) by (done || by intros ? []).
    rewrite (existsb_zip_with _ _ failed);
      [done | by rewrite length_fmap | done].
Qed.

(** The show branch: one read per target; only a failure that is not a
    [ClientError] can make the run end otherwise than by returning. *)
Lemma show_pool sched (targets : list Target) (w : World CS) :
  let r := (let (w', done) :=
              pool sched
                (map (fun t : Target =>
                        (get_reserved_concurrency sdk t.1, t.1)) targets) w in
            let (out, x) := show_results done [] in
            {| world := w'; stdout := out; stderr := []; exit := x |}) in
  trace (world r) = trace w ++ issued w r
  ∧ (issued w r).*1 ≡ₚ (fun t => Get t.1) <$> targets
  ∧ (only_client_errors (issued w r) = true → exit r = Returned).
Proof.
  set (post := fun (t : Target) (r : Response) =>
    match r with
    | inr None => inr (t.1, "NONE (unlimited; uses account pool)"%string)
    | inr (Some rce) =>
        if (rce =? 0)%Z then inr (t.1, "0 (DISABLED)"%string)
        else inr (t.1, Py.str rce)
    | inl (ClientError code msg _) =>
        inr (t.1, ("ERROR: " ++ Py.str_opt id code ++ " - "
                   ++ Py.str_opt id msg)%string)
    | inl e => inl e
    end).
  destruct (pool_shape sdk
              (fun t : Target => (get_reserved_concurrency sdk t.1, t.1))
              (fun t => Get t.1) post sched targets w)
    as (ys & rs & Hperm & Hlen & Htrace & _ & Hdone).
  { intros t w0. unfold get_reserved_concurrency, post. simpl.
    by destruct (invoke sdk (Get t.1) w0). }
  change (map ?f targets) with (f <$> targets).
  destruct (pool sched _ w) as [w' done]. simpl in *.
  pose proof (show_results_no_raise done []) as Hshow.
  destruct (show_results done []) as [out x]. simpl in *.
  assert (Hissued : issued w {| world := w'; stdout := out; stderr := [];
                                exit := x |}
                    = zip ((fun t : Target => Get t.1) <$> ys) rs).
  { unfold issued. simpl. by rewrite Htrace, drop_app_length. }
  rewrite Hissued. split; [done|]. split.
  - rewrite fst_zip by (rewrite length_fmap; lia). by rewrite Hperm.
  - intros Hce. apply Hshow.
    rewrite (forallb_Permutation _ _ _ Hdone).
    unfold only_client_errors in Hce.
    rewrite (forallb_zip_with _ _
               (fun r : Response => match r with
                                    | inl e => is_client_error e
                                    | inr _ => true
                                    end)) in Hce;
      [| by rewrite length_fmap | done].
    rewrite (forallb_zip_with _ _
               (fun r : Response => match r with
                                    | inl e => is_client_error e
                                    | inr _ => true
                                    end)); [done | done |].
    intros t [[]|[rce|]]; simpl; try done. by destruct (rce =? 0)%Z.
Qed.

End Branches.

(** ** [main], mode by mode *)

Section Main.

Context {CS : Type}.
Variable sdk : CS → Call → CS * Response.
Implicit Types (args : Args) (env : Env) (sched : Sched) (w : World CS).

Lemma issued_same w (r : Run) : trace (world r) = trace w → issued w r = [].
Proof. unfold issued. intros ->. apply drop_all. Qed.

Lemma issued_stop w e : issued w (stop w e) = [].
Proof. by apply issued_same. Qed.

Lemma issued_printed w lines : issued w (printed w lines) = [].
Proof. by apply issued_same. Qed.

(** Without a mode the run ends on the message about modes. *)
Lemma main_no_mode args env sched w :
  mode_of args = None →
  main sdk args env sched w = stop w (SystemExit (Text ExactlyOneMode)).
Proof.
  unfold mode_of, main. destruct (show args); [done|].
  by destruct (chosen args) as [|m [|]].
Qed.

(** When the targets cannot be resolved the run ends as [iter_targets]
    did. *)
Lemma main_raise args env sched w mode e :
  mode_of args = Some mode →
  iter_targets args env (reads_values mode) = Raise e →
  main sdk args env sched w = stop w e.
Proof.
  unfold mode_of, main, reads_values. destruct (show args).
  - intros [= <-]. simpl. by intros ->.
  - destruct (chosen args) as [|m [|]] eqn:Hc; try done. intros [= ->].
    destruct (chosen_cases _ _ Hc) as [-> | [-> | ->]]; simpl; by intros ->.
Qed.

(** Set mode with a value missing. *)
Lemma main_missing args env sched w ts :
  mode_of args = Some "set" →
  iter_targets args env true = Ok ts →
  missing ts ≠ [] →
  main sdk args env sched w
  = stop w (SystemExit (Text (MissingValues (miss_str (missing ts))))).
Proof.
  intros [Hs Hc]%mode_of_chosen Ht Hm; [|done].
  unfold main. rewrite Hs, Hc. simpl. rewrite Ht.
  by destruct (missing ts).
Qed.

(** A dry run of a writing mode only prints. *)
Lemma main_dry args env sched w mode ts :
  mode_of args = Some mode → mode ≠ "show" →
  dry_run args = true →
  iter_targets args env (reads_values mode) = Ok ts →
  (mode = "set" → missing ts = []) →
  main sdk args env sched w = printed w (dry_lines mode ts).
Proof.
  intros Hmode Hns Hd Ht Hm.
  destruct (mode_of_chosen _ _ Hmode Hns) as [Hs Hc].
  unfold main, reads_values in *. rewrite Hs, Hc.
  destruct (chosen_cases _ _ Hc) as [-> | [-> | ->]]; simpl in *;
    rewrite Ht, ?Hd; try done.
  by rewrite Hm.
Qed.

(** A live run: every planned call is made, and the exit status follows
    the failures as the mode has it. *)
Lemma main_live args env sched w mode ts :
  mode_of args = Some mode →
  mode = "show" ∨ dry_run args = false →
  iter_targets args env (reads_values mode) = Ok ts →
  (mode = "set" → missing ts = []) →
  let r := main sdk args env sched w in
  trace (world r) = trace w ++ issued w r
  ∧ (issued w r).*1 ≡ₚ planned mode ts
  ∧ (mode ≠ "show" →
     exit r = if any_failed (issued w r)
              then Raising (SystemExit (Status 1)) else Returned)
  ∧ (mode = "show" →
     only_client_errors (issued w r) = true → exit r = Returned).
Proof.
  intros Hmode Hlive Ht Hm. unfold reads_values in Ht.
  destruct (decide (mode = "show")) as [-> | Hns].
  - apply mode_of_show in Hmode. unfold main. rewrite Hmode.
    simpl in Ht. rewrite Ht.
    destruct (show_pool sdk sched ts w) as (H1 & H2 & H3).
    split; [done|]. split; [done|]. split; [done|]. intros _. apply H3.
  - destruct Hlive as [-> | Hd]; [done|].
    destruct (mode_of_chosen _ _ Hmode Hns) as [Hs Hc].
    unfold main. rewrite Hs, Hc.
    destruct (chosen_cases _ _ Hc) as [-> | [-> | ->]]; simpl in *;
      rewrite Ht, ?Hd.
    + destruct (write_pool sdk
                  (fun t : Target => (delete_concurrency sdk t.1, t.1))
                  (fun t => Delete t.1)
                  (fun t => ("[REMOVE] " ++ t.1
                             ++ ": ReservedConcurrency removed")%string)
                  id sched ts w) as (H1 & H2 & H3).
      { intros t w0. unfold delete_concurrency. simpl.
        by destruct (invoke sdk (Delete t.1) w0). }
      by repeat split.
    + destruct (write_pool sdk
                  (fun t : Target => (set_reserved sdk t.1 0, t.1))
                  (fun t => Put t.1 0)
                  (fun t => ("[SET   ] " ++ t.1
                             ++ ": ReservedConcurrency=" ++ Py.str 0)%string)
                  id sched ts w) as (H1 & H2 & H3).
      { intros t w0. unfold set_reserved. simpl.
        by destruct (invoke sdk (Put t.1 0) w0). }
      by repeat split.
    + rewrite Hm by done.
      destruct (write_pool sdk
                  (fun t : string * Z =>
                     if (t.2 =? -1)%Z
                     then (delete_concurrency sdk t.1, t)
                     else (set_reserved sdk t.1 t.2, t))
                  set_action
                  (fun t => if (t.2 =? -1)%Z
                            then ("[REMOVE] " ++ t.1
                                  ++ ": ReservedConcurrency removed")%string
                            else ("[SET   ] " ++ t.1
                                  ++ ": ReservedConcurrency="
                                  ++ Py.str t.2)%string)
                  (fun t : string * Z =>
                     (t.1 ++ " (target " ++ Py.str t.2 ++ ")")%string)
                  sched (valued ts) w) as (H1 & H2 & H3).
      { intros t w0. unfold set_action, delete_concurrency, set_reserved.
        destruct (t.2 =? -1)%Z; simpl.
        - by destruct (invoke sdk (Delete t.1) w0).
        - by destruct (invoke sdk (Put t.1 t.2) w0). }
      by repeat split.
Qed.

End Main.

(** ** Consequences used by several properties *)

(** What [iter_targets] returns, when it returns. *)
Lemma iter_targets_Ok_inv args env (rv : bool) reader ts :
  input_rows args env = Ok reader →
  iter_targets args env rv = Ok ts →
  ts = spec_targets args rv reader
  ∧ ts ≠ []
  ∧ (if rv then forallb value_ok (spec_included reader) else true) = true.
Proof.
  intros Hrows Ht.
  destruct (if rv then forallb value_ok (spec_included reader) else true)
    eqn:Hok.
  - rewrite (iter_targets_spec _ _ _ _ Hrows Hok) in Ht.
    destruct (spec_targets args rv reader); by simplify_eq.
  - destruct rv; [|done].
    rewrite iter_targets_rows, Hrows in Ht. simpl in Ht.
    destruct (read_rows_bad_value args reader [] Hok) as [s Hs].
    by rewrite Hs in Ht.
Qed.

Lemma spec_targets_names args rv reader :
  (spec_targets args rv reader).*1 = row_name <$> spec_included reader.
Proof.
  unfold spec_targets. rewrite <- list_fmap_compose. done.
Qed.

Lemma spec_targets_nil args rv reader :
  spec_targets args rv reader = [] ↔ spec_included reader = [].
Proof.
  unfold spec_targets. split.
  - apply fmap_nil_inv.
  - by intros ->.
Qed.

(** Every run either leaves the client alone or is a live run of its
    mode, whose calls are the planned ones. *)
Lemma main_calls {CS} (sdk : CS → Call → CS * Response) args env sched
    (w : World CS) :
  let r := main sdk args env sched w in
  (world r = w ∧ issued w r = [] ∧ exit r ≠ Returned)
  ∨ (∃ mode ts, mode_of args = Some mode ∧ mode ≠ "show"
       ∧ dry_run args = true
       ∧ iter_targets args env (reads_values mode) = Ok ts
       ∧ (mode = "set" → missing ts = [])
       ∧ r = printed w (dry_lines mode ts))
  ∨ (∃ mode ts, mode_of args = Some mode
       ∧ (mode = "show" ∨ dry_run args = false)
       ∧ iter_targets args env (reads_values mode) = Ok ts
       ∧ (mode = "set" → missing ts = [])
       ∧ (issued w r).*1 ≡ₚ planned mode ts).
Proof.
  intros r. subst r.
  destruct (mode_of args) as [mode|] eqn:Hmode.
  2: { left. rewrite main_no_mode by done. by rewrite issued_stop. }
  destruct (iter_targets args env (reads_values mode)) as [ts|e] eqn:Ht.
  2: { left. rewrite (main_raise sdk _ _ _ _ _ _ Hmode Ht).
       by rewrite issued_stop. }
  destruct (decide (mode = "set" ∧ missing ts ≠ [])) as [[-> Hm]|Hm].
  { left. rewrite (main_missing sdk _ _ _ _ _ Hmode Ht Hm).
    by rewrite issued_stop. }
  assert (Hm' : mode = "set" → missing ts = []).
  { intros ->. destruct (missing ts) eqn:E; [done|]. destruct Hm. done. }
  destruct (decide (mode = "show")) as [-> | Hns].
  { right. right. exists "show", ts.
    destruct (main_live sdk args env sched w "show" ts) as (_ & H2 & _);
      auto. }
  destruct (dry_run args) eqn:Hd.
  - right. left. exists mode, ts.
    by rewrite (main_dry sdk _ _ _ _ _ _ Hmode Hns Hd Ht Hm').
  - right. right. exists mode, ts.
    destruct (main_live sdk args env sched w mode ts) as (_ & H2 & _);
      auto 10.
Qed.

Lemma set_action_not_put_minus_one (t : string * Z) fn :
  set_action t ≠ Put fn (-1).
Proof.
  unfold set_action. destruct (t.2 =? -1)%Z eqn:E; [done|].
  intros [= _ H]. apply Z.eqb_neq in E. done.
Qed.

Lemma planned_show ts : planned "show" ts = (fun t => Get t.1) <$> ts.
Proof. done. Qed.

Lemma planned_remove ts : planned "remove" ts = (fun t => Delete t.1) <$> ts.
Proof. done. Qed.

Lemma planned_throttle ts :
  planned "throttle" ts = (fun t => Put t.1 0) <$> ts.
Proof. done. Qed.

Lemma planned_set ts : planned "set" ts = set_action <$> valued ts.
Proof. done. Qed.

Lemma valued_elem (ts : list Target) fn v :
  (fn, Some v) ∈ ts → (fn, v) ∈ valued ts.
Proof.
  intros Hin. unfold valued. apply list_elem_of_omap.
  exists (fn, Some v). by split.
Qed.

(** ** The properties of the specification *)

(** C1. In Set mode every target takes the value of its row when the row
    has one and the default of [--concurrency] otherwise.  For the rows
    [a,5], [b], [c,-1] with default 3 the targets are (a,5), (b,3), (c,-1),
    and a live run puts 5 for a, puts 3 for b and deletes for c. *)
Theorem set_mode_resolves_targets {CS} (sdk : CS → Call → CS * Response)
    args env sched (w : World CS) reader :
  input_rows args env = Ok reader →
  (∀ ts, iter_targets args env true = Ok ts →
         ts = spec_targets args true reader)
  ∧ (forallb value_ok (spec_included reader) = true →
     spec_included reader ≠ [] →
     iter_targets args env true = Ok (spec_targets args true reader))
  ∧ (reader = [["a"; "5"]; ["b"]; ["c"; "-1"]] →
     concurrency args = Some 3 →
     iter_targets args env true
     = Ok [("a", Some 5); ("b", Some 3); ("c", Some (-1))]
     ∧ (mode_of args = Some "set" → dry_run args = false →
        (issued w (main sdk args env sched w)).*1
        ≡ₚ [Put "a" 5; Put "b" 3; Delete "c"])).
Proof.
  intros Hrows. split; [|split].
  - intros ts Ht. by destruct (iter_targets_Ok_inv _ _ _ _ _ Hrows Ht).
  - intros Hok Hne. rewrite (iter_targets_spec _ _ true _ Hrows Hok).
    destruct (spec_targets args true reader) eqn:E; [|done].
    by apply spec_targets_nil in E.
  - intros -> Hc.
    assert (Ht : iter_targets args env true
                 = Ok [("a", Some 5); ("b", Some 3); ("c", Some (-1))]).
    { rewrite (iter_targets_spec _ _ true _ Hrows) by done.
      unfold spec_targets, spec_value. rewrite Hc. done. }
    split; [done|]. intros Hmode Hd.
    destruct (main_live sdk args env sched w "set" _ Hmode (or_intror Hd) Ht)
      as (_ & H2 & _); done.
Qed.

Lemma set_mode_resolves_targets_witness :
  iter_targets Sample.set_args Sample.three_rows true
  = Ok [("a", Some 5); ("b", Some 3); ("c", Some (-1))]
  ∧ (issued Sample.two_functions
       (main Sample.sdk Sample.set_args Sample.three_rows fifo
          Sample.two_functions)).*1
    ≡ₚ [Put "a" 5; Put "b" 3; Delete "c"].
Proof.
  destruct (set_mode_resolves_targets Sample.sdk Sample.set_args
              Sample.three_rows fifo Sample.two_functions
              [["a"; "5"]; ["b"]; ["c"; "-1"]] eq_refl)
    as (_ & _ & H).
  destruct (H eq_refl eq_refl) as [Ht Hrun].
  split; [exact Ht | exact (Hrun eq_refl eq_refl)].
Defined.

(** C2. In Set mode a target resolved to -1, from its row or from the
    default, is deleted (a dry run prints the removal); no put with the
    value -1 is ever made. *)
Theorem set_mode_minus_one_deletes {CS} (sdk : CS → Call → CS * Response)
    args env sched (w : World CS) :
  mode_of args = Some "set" →
  let r := main sdk args env sched w in
  (∀ fn, Put fn (-1) ∉ (issued w r).*1)
  ∧ (∀ ts fn,
       iter_targets args env true = Ok ts → missing ts = [] →
       (fn, Some (-1)) ∈ ts →
       if dry_run args
       then ("[DRYRUN REMOVE] " ++ fn)%string ∈ stdout r ∧ issued w r = []
       else Delete fn ∈ (issued w r).*1).
Proof.
  intros Hmode r. subst r. split.
  - intros fn Hin.
    destruct (main_calls sdk args env sched w)
      as [(_ & H & _)|[(m & ts & _ & _ & _ & _ & _ & H)
                      |(m & ts & Hm & _ & _ & _ & H)]].
    + by rewrite H in Hin; apply elem_of_nil in Hin.
    + rewrite H, issued_printed in Hin. by apply elem_of_nil in Hin.
    + rewrite Hmode in Hm. injection Hm as <-.
      rewrite H, planned_set in Hin.
      apply list_elem_of_fmap in Hin as (t & Ht & _).
      by eapply set_action_not_put_minus_one.
  - intros ts fn Ht Hm Hin. destruct (dry_run args) eqn:Hd.
    + rewrite (main_dry sdk _ _ _ _ "set" ts) by done.
      split; [|apply issued_printed]. simpl.
      apply list_elem_of_fmap. exists (fn, -1). split; [done|].
      by apply valued_elem.
    + destruct (main_live sdk args env sched w "set" ts Hmode
                  (or_intror Hd) Ht) as (_ & H2 & _); [done|].
      rewrite H2, planned_set.
      apply list_elem_of_fmap. exists (fn, -1). split; [done|].
      by apply valued_elem.
Qed.

Lemma set_mode_minus_one_deletes_witness :
  (Put "c" (-1)
     ∉ (issued Sample.two_functions
          (main Sample.sdk Sample.set_args Sample.three_rows fifo
             Sample.two_functions)).*1)
  ∧ (Delete "c"
     ∈ (issued Sample.two_functions
          (main Sample.sdk Sample.set_args Sample.three_rows fifo
             Sample.two_functions)).*1).
Proof.
  destruct (set_mode_minus_one_deletes Sample.sdk Sample.set_args
              Sample.three_rows fifo Sample.two_functions eq_refl)
    as [Hput Hdel].
  split; [apply Hput|].
  apply (Hdel [("a", Some 5); ("b", Some 3); ("c", Some (-1))] "c");
    [reflexivity | reflexivity |].
  apply list_elem_of_In. simpl. auto.
Defined.

(** C3. With [--show] the run only reads, whatever other mode flags are
    given: one get per target, and no put and no delete. *)
Theorem show_only_reads {CS} (sdk : CS → Call → CS * Response)
    args env sched (w : World CS) :
  show args = true →
  let r := main sdk args env sched w in
  forallb is_get (issued w r).*1 = true
  ∧ (∀ ts, iter_targets args env false = Ok ts →
           (issued w r).*1 ≡ₚ (fun t => Get t.1) <$> ts).
Proof.
  intros Hshow r. subst r.
  assert (Hmode : mode_of args = Some "show")
    by (unfold mode_of; by rewrite Hshow).
  split.
  - destruct (main_calls sdk args env sched w)
      as [(_ & H & _)|[(m & ts & Hm & Hns & _)
                      |(m & ts & Hm & _ & _ & _ & H)]].
    + by rewrite H.
    + rewrite Hmode in Hm. by injection Hm as <-.
    + rewrite Hmode in Hm. injection Hm as <-.
      rewrite (forallb_Permutation _ _ _ H), planned_show.
      apply forallb_forall. intros c Hc.
      apply in_map_iff in Hc as (t & <- & _). done.
  - intros ts Ht.
    destruct (main_live sdk args env sched w "show" ts Hmode
                (or_introl eq_refl) Ht) as (_ & H2 & _); done.
Qed.

Lemma show_only_reads_witness :
  forallb is_get
    (issued Sample.two_functions
       (main Sample.sdk Sample.show_args Sample.no_input fifo
          Sample.two_functions)).*1 = true
  ∧ (issued Sample.two_functions
       (main Sample.sdk Sample.show_args Sample.no_input fifo
          Sample.two_functions)).*1 ≡ₚ [Get "f"].
Proof.
  destruct (show_only_reads Sample.sdk Sample.show_args Sample.no_input
              fifo Sample.two_functions eq_refl) as [Hg Hp].
  split; [exact Hg | exact (Hp [("f", None)] eq_refl)].
Defined.

(** C4, as the code has it.  In a live run every target's call is made
    whatever the others did.  In Remove, Throttle and Set mode the status
    is 1 when one of the calls failed and 0 otherwise.  In Show mode a read
    answered by a [ClientError] is reported on that target's line and the
    status stays 0. *)
Theorem exit_status_follows_failures {CS} (sdk : CS → Call → CS * Response)
    args env sched (w : World CS) mode ts :
  mode_of args = Some mode →
  mode = "show" ∨ dry_run args = false →
  iter_targets args env (reads_values mode) = Ok ts →
  (mode = "set" → missing ts = []) →
  let r := main sdk args env sched w in
  (issued w r).*1 ≡ₚ planned mode ts
  ∧ (mode ≠ "show" →
     exit_status (exit r) = if any_failed (issued w r) then 1 else 0)
  ∧ (mode = "show" →
     only_client_errors (issued w r) = true → exit_status (exit r) = 0).
Proof.
  intros Hmode Hlive Ht Hm r. subst r.
  destruct (main_live sdk args env sched w mode ts Hmode Hlive Ht Hm)
    as (_ & H2 & H3 & H4).
  split; [done|]. split.
  - intros Hns. rewrite (H3 Hns). by destruct (any_failed _).
  - intros Hs Hce. by rewrite (H4 Hs Hce).
Qed.

Lemma exit_status_follows_failures_witness :
  (issued Sample.two_functions
     (main Sample.sdk Sample.set_args Sample.three_rows fifo
        Sample.two_functions)).*1
  ≡ₚ [Put "a" 5; Put "b" 3; Delete "c"]
  ∧ exit_status
      (exit (main Sample.sdk Sample.set_args Sample.three_rows fifo
               Sample.two_functions)) = 1.
Proof.
  destruct (exit_status_follows_failures Sample.sdk Sample.set_args
              Sample.three_rows fifo Sample.two_functions "set"
              [("a", Some 5); ("b", Some 3); ("c", Some (-1))]
              eq_refl (or_intror eq_refl) eq_refl (fun _ => eq_refl))
    as (Hp & Hx & _).
  split; [exact Hp | exact (Hx ltac:(discriminate))].
Defined.

(** C4 as stated fails: [--show --function f] on an account without [f]
    gets a [ClientError] for its one read and still ends with status 0. *)
Lemma show_failure_exits_zero :
  let r := main Sample.sdk Sample.show_f Sample.no_input fifo
             Sample.two_functions in
  any_failed (issued Sample.two_functions r) = true
  ∧ exit_status (exit r) = 0.
Proof. split; reflexivity. Qed.

(** C5, as the code has it.  With [--dry-run] and without [--show] no
    call reaches the client and its state is as before; the status is 0
    once the mode and the targets are valid, and the actions are printed.
    With [--show] the flag is ignored: one read is made for every target,
    and nothing else. *)
Theorem dry_run_makes_no_call {CS} (sdk : CS → Call → CS * Response)
    args env sched (w : World CS) :
  dry_run args = true →
  let r := main sdk args env sched w in
  (show args = false → issued w r = [] ∧ world r = w)
  ∧ (show args = true →
     forallb is_get (issued w r).*1 = true
     ∧ ∀ ts, iter_targets args env false = Ok ts →
             (issued w r).*1 ≡ₚ (fun t => Get t.1) <$> ts)
  ∧ (∀ mode ts,
       mode_of args = Some mode → mode ≠ "show" →
       iter_targets args env (reads_values mode) = Ok ts →
       (mode = "set" → missing ts = []) →
       exit_status (exit r) = 0 ∧ stdout r = dry_lines mode ts).
Proof.
  intros Hd r. subst r. split; [|split].
  - intros Hs.
    destruct (main_calls sdk args env sched w)
      as [(H1 & H2 & _)|[(m & ts & _ & _ & _ & _ & _ & H)
                        |(m & ts & Hm & [->|Hl] & _)]].
    + done.
    + rewrite H. by rewrite issued_printed.
    + apply mode_of_show in Hm. congruence.
    + congruence.
  - intros Hs.
    assert (Hmode : mode_of args = Some "show")
      by (unfold mode_of; by rewrite Hs).
    split.
    + destruct (main_calls sdk args env sched w)
        as [(_ & H & _)|[(m & ts & Hm & Hns & _)
                        |(m & ts & Hm & _ & _ & _ & H)]].
      * by rewrite H.
      * rewrite Hmode in Hm. by injection Hm as <-.
      * rewrite Hmode in Hm. injection Hm as <-.
        rewrite (forallb_Permutation _ _ _ H), planned_show.
        apply forallb_forall. intros c Hc.
        apply in_map_iff in Hc as (t & <- & _). done.
    + intros ts Ht.
      destruct (main_live sdk args env sched w "show" ts Hmode
                  (or_introl eq_refl) Ht) as (_ & H2 & _); done.
  - intros mode ts Hmode Hns Ht Hm.
    by rewrite (main_dry sdk _ _ _ _ _ _ Hmode Hns Hd Ht Hm).
Qed.

Lemma dry_run_makes_no_call_witness :
  (let r := main Sample.sdk Sample.dry_remove Sample.mixed_rows fifo
              Sample.two_functions in
   (issued Sample.two_functions r = [] ∧ world r = Sample.two_functions)
   ∧ exit_status (exit r) = 0
   ∧ stdout r = ["[DRYRUN REMOVE] a"; "[DRYRUN REMOVE] b"])
  ∧ (issued Sample.two_functions
       (main Sample.sdk Sample.show_args Sample.no_input fifo
          Sample.two_functions)).*1 ≡ₚ [Get "f"].
Proof.
  split.
  - destruct (dry_run_makes_no_call Sample.sdk Sample.dry_remove
                Sample.mixed_rows fifo Sample.two_functions eq_refl)
      as (H1 & _ & H3).
    split; [exact (H1 eq_refl)|].
    exact (H3 "remove" [("a", None); ("b", None)] eq_refl
             ltac:(discriminate) eq_refl ltac:(discriminate)).
  - destruct (dry_run_makes_no_call Sample.sdk Sample.show_args
                Sample.no_input fifo Sample.two_functions eq_refl)
      as (_ & H2 & _).
    exact (proj2 (H2 eq_refl) [("f", None)] eq_refl).
Defined.

(** C5 as stated fails twice: with [--show] a dry run still makes its
    read, and a dry run of Set mode without a value ends with status 1. *)
Lemma dry_run_calls_or_fails :
  (dry_run Sample.show_args = true
   ∧ (issued Sample.two_functions
        (main Sample.sdk Sample.show_args Sample.no_input fifo
           Sample.two_functions)).*1 = [Get "f"])
  ∧ (dry_run Sample.dry_set_f = true
     ∧ exit_status
         (exit (main Sample.sdk Sample.dry_set_f Sample.no_input fifo
                  Sample.two_functions)) = 1).
Proof. repeat split; reflexivity. Qed.

(** C6. In Set mode, when a target has no value of its own and there is no
    default, the run ends on the message about missing values before any
    call is made; the message lists the first five such names at most,
    followed by an ellipsis when there are more.  A run whose target list
    is empty ends the same way, on the message about missing names. *)
Theorem missing_value_stops_before_any_call {CS}
    (sdk : CS → Call → CS * Response) args env sched (w : World CS) :
  let r := main sdk args env sched w in
  (mode_of args = Some "set" →
   ∀ ts, iter_targets args env true = Ok ts → missing ts ≠ [] →
     exit r = Raising (SystemExit (Text (MissingValues
                (Py.join ", " (take 5 (missing ts))
                 ++ (if (5 <? length (missing ts))%nat
                     then "..." else ""))%string)))
     ∧ (length (take 5 (missing ts)) ≤ 5)%nat
     ∧ issued w r = [] ∧ world r = w)
  ∧ (mode_of args = Some "set" →
     ∀ reader parts,
       input_rows args env = Ok reader →
       forallb value_ok (spec_included reader) = true →
       concurrency args = None →
       parts ∈ spec_included reader →
       parse_int_or_none (row_text parts) = Ok None →
       ∃ names, row_name parts ∈ names
         ∧ exit r = Raising (SystemExit (Text (MissingValues
                                                 (miss_str names))))
         ∧ issued w r = [] ∧ world r = w)
  ∧ (∀ mode reader,
       mode_of args = Some mode →
       input_rows args env = Ok reader →
       spec_included reader = [] →
       exit r = Raising (SystemExit (Text NoFunctionNames))
       ∧ issued w r = [] ∧ world r = w).
Proof.
  intros r. subst r. split; [|split].
  - intros Hmode ts Ht Hm.
    rewrite (main_missing sdk _ _ _ _ _ Hmode Ht Hm).
    rewrite issued_stop. repeat split. apply firstn_le_length.
  - intros Hmode reader parts Hrows Hok Hc Hin Hnone.
    assert (Ht := iter_targets_spec args env true reader Hrows Hok).
    assert (Hel : (row_name parts, None) ∈ spec_targets args true reader).
    { unfold spec_targets. apply list_elem_of_fmap. exists parts.
      split; [|done]. unfold spec_value. by rewrite Hnone, Hc. }
    destruct (spec_targets args true reader) as [|t ts] eqn:E.
    { by apply elem_of_nil in Hel. }
    apply missing_names in Hel.
    exists (missing (t :: ts)). split; [done|].
    rewrite (main_missing sdk _ _ _ _ _ Hmode Ht).
    + by rewrite issued_stop.
    + intros Hnil. rewrite Hnil in Hel. by apply elem_of_nil in Hel.
  - intros mode reader Hmode Hrows Hnil.
    assert (Ht : iter_targets args env (reads_values mode)
                 = Raise (SystemExit (Text NoFunctionNames))).
    { rewrite (iter_targets_spec _ _ _ _ Hrows).
      - by rewrite (proj2 (spec_targets_nil _ _ _) Hnil).
      - rewrite Hnil. by destruct (reads_values mode). }
    rewrite (main_raise sdk _ _ _ _ _ _ Hmode Ht).
    by rewrite issued_stop.
Qed.

Lemma missing_value_stops_before_any_call_witness :
  let r := main Sample.sdk Sample.set_file Sample.seven_names fifo
             Sample.two_functions in
  exit r = Raising (SystemExit (Text (MissingValues "a, b, d, e, f...")))
  ∧ issued Sample.two_functions r = [].
Proof.
  destruct (missing_value_stops_before_any_call Sample.sdk Sample.set_file
              Sample.seven_names fifo Sample.two_functions) as (H & _ & _).
  destruct (H eq_refl
              [("a", None); ("b", None); ("c", Some 1); ("d", None);
               ("e", None); ("f", None); ("g", None); ("h", None)]
              eq_refl ltac:(discriminate)) as (Hx & _ & Hi & _).
  split; [exact Hx | exact Hi].
Defined.

(** C7. In Throttle mode every target gets a put of 0 (a dry run prints
    it): the targets are the names of the rows taken in, and neither the
    second column of a row nor [--concurrency] is looked at. *)
Theorem throttle_puts_zero {CS} (sdk : CS → Call → CS * Response)
    args env sched (w : World CS) reader :
  mode_of args = Some "throttle" →
  input_rows args env = Ok reader →
  spec_included reader ≠ [] →
  let r := main sdk args env sched w in
  let names := row_name <$> spec_included reader in
  if dry_run args
  then issued w r = []
       ∧ stdout r = (fun fn => "[DRYRUN SET] " ++ fn ++ " -> 0")%string
                    <$> names
  else (issued w r).*1 ≡ₚ (fun fn => Put fn 0) <$> names.
Proof.
  intros Hmode Hrows Hne r names. subst r names.
  assert (Ht : iter_targets args env (reads_values "throttle")
               = Ok (spec_targets args false reader)).
  { change (reads_values "throttle") with false.
    rewrite (iter_targets_spec _ _ false _ Hrows) by done.
    destruct (spec_targets args false reader) eqn:E; [|done].
    by apply spec_targets_nil in E. }
  destruct (dry_run args) eqn:Hd.
  - rewrite (main_dry sdk _ _ _ _ "throttle" _ Hmode) by done.
    split; [apply issued_printed|]. simpl.
    unfold dry_lines, spec_targets. simpl.
    by rewrite <- !list_fmap_compose.
  - destruct (main_live sdk args env sched w "throttle" _ Hmode
                (or_intror Hd) Ht) as (_ & H2 & _); [done|].
    rewrite H2, planned_throttle. unfold spec_targets.
    by rewrite <- !list_fmap_compose.
Qed.

Lemma throttle_puts_zero_witness :
  (issued Sample.two_functions
     (main Sample.sdk Sample.throttle_args Sample.mixed_rows fifo
        Sample.two_functions)).*1
  ≡ₚ [Put "a" 0; Put "b" 0].
Proof.
  exact (throttle_puts_zero Sample.sdk Sample.throttle_args
           Sample.mixed_rows fifo Sample.two_functions
           (stdin_rows Sample.mixed_rows) eq_refl eq_refl
           ltac:(vm_compute; discriminate)).
Defined.

(** C8. Whatever the rows, the names in the target list are the trimmed
    names of exactly the rows that are not blank, whose name is not empty
    after trimming and does not start with "function" in any case of the
    letters; and the list is returned whenever one such row exists and, if
    the values are read, none of theirs is malformed. *)
Theorem header_and_blank_rows_excluded args env (rv : bool) reader :
  input_rows args env = Ok reader →
  (∀ ts, iter_targets args env rv = Ok ts →
         ts.*1 = row_name <$> spec_included reader)
  ∧ ((if rv then forallb value_ok (spec_included reader) else true) = true →
     spec_included reader ≠ [] →
     ∃ ts, iter_targets args env rv = Ok ts)
  ∧ (∀ parts, parts ∈ spec_included reader ↔
              parts ∈ reader ∧ spec_excluded parts = false).
Proof.
  intros Hrows. split; [|split].
  - intros ts Ht.
    destruct (iter_targets_Ok_inv _ _ _ _ _ Hrows Ht) as (-> & _ & _).
    apply spec_targets_names.
  - intros Hok Hne. rewrite (iter_targets_spec _ _ _ _ Hrows Hok).
    destruct (spec_targets args rv reader) eqn:E; [|eauto].
    by apply spec_targets_nil in E.
  - intros parts. unfold spec_included. rewrite list_elem_of_filter.
    tauto.
Qed.

Lemma header_and_blank_rows_excluded_witness :
  iter_targets Sample.throttle_args Sample.mixed_rows false
  = Ok [("a", None); ("b", None)]
  ∧ row_name <$> spec_included (stdin_rows Sample.mixed_rows) = ["a"; "b"].
Proof.
  destruct (header_and_blank_rows_excluded Sample.throttle_args
              Sample.mixed_rows false (stdin_rows Sample.mixed_rows) eq_refl)
    as (Hnames & _ & _).
  split; [reflexivity|].
  rewrite <- (Hnames [("a", None); ("b", None)] eq_refl). reflexivity.
Defined.

(** C9. The header test also applies to the name given by [--function]:
    when it starts, once trimmed, with "function" in any case of the
    letters, it is dropped, no target is left, and the run ends on the
    message about missing names without touching the client. *)
Theorem header_like_function_name_dropped {CS}
    (sdk : CS → Call → CS * Response) args env sched (w : World CS) name :
  function args = Some name →
  file args = None →
  Py.startswith (Py.lower (Py.strip name)) "function" = true →
  let r := main sdk args env sched w in
  (∀ rv, iter_targets args env rv
         = Raise (SystemExit (Text NoFunctionNames)))
  ∧ issued w r = [] ∧ world r = w
  ∧ (mode_of args ≠ None →
     exit r = Raising (SystemExit (Text NoFunctionNames)))
  ∧ config_error (exit r) = true.
Proof.
  intros Hf Hfile Hhead r. subst r.
  assert (Ht : ∀ rv, iter_targets args env rv
                     = Raise (SystemExit (Text NoFunctionNames))).
  { intros rv. unfold iter_targets. rewrite Hf, Hfile. simpl.
    unfold add_row, skipped. rewrite Hhead, orb_true_r.
    by destruct (Py.truthy name). }
  split; [done|].
  destruct (mode_of args) as [mode|] eqn:Hmode.
  - rewrite (main_raise sdk _ _ _ _ _ _ Hmode (Ht _)).
    by rewrite issued_stop.
  - rewrite (main_no_mode sdk _ _ _ _ Hmode).
    by rewrite issued_stop.
Qed.

Lemma header_like_function_name_dropped_witness :
  let r := main Sample.sdk Sample.remove_header_like Sample.no_input fifo
             Sample.two_functions in
  exit r = Raising (SystemExit (Text NoFunctionNames))
  ∧ issued Sample.two_functions r = [].
Proof.
  destruct (header_like_function_name_dropped Sample.sdk
              Sample.remove_header_like Sample.no_input fifo
              Sample.two_functions " Function-A" eq_refl eq_refl eq_refl)
    as (_ & Hi & _ & Hx & _).
  split; [exact (Hx ltac:(discriminate)) | exact Hi].
Defined.

(** C10. Set mode checks no range: a live run makes, for every target
    whose value is not -1, a put that carries that very value, be it
    negative or 0. *)
Theorem set_mode_passes_value_unchanged {CS}
    (sdk : CS → Call → CS * Response) args env sched (w : World CS) ts :
  mode_of args = Some "set" →
  dry_run args = false →
  iter_targets args env true = Ok ts →
  missing ts = [] →
  let r := main sdk args env sched w in
  (∀ fn v, (fn, Some v) ∈ ts → v ≠ -1 → Put fn v ∈ (issued w r).*1)
  ∧ (issued w r).*1 ≡ₚ set_action <$> valued ts.
Proof.
  intros Hmode Hd Ht Hm r. subst r.
  destruct (main_live sdk args env sched w "set" ts Hmode
              (or_intror Hd) Ht) as (_ & H2 & _); [done|].
  rewrite planned_set in H2. split; [|done].
  intros fn v Hin Hv. rewrite H2.
  apply list_elem_of_fmap. exists (fn, v). split; [|by apply valued_elem].
  unfold set_action. simpl. by apply Z.eqb_neq in Hv as ->.
Qed.

Lemma set_mode_passes_value_unchanged_witness :
  let calls := (issued Sample.two_functions
                  (main Sample.sdk Sample.set_file Sample.low_rows fifo
                     Sample.two_functions)).*1 in
  Put "a" (-2) ∈ calls ∧ Put "b" 0 ∈ calls.
Proof.
  destruct (set_mode_passes_value_unchanged Sample.sdk Sample.set_file
              Sample.low_rows fifo Sample.two_functions
              [("a", Some (-2)); ("b", Some 0)]
              eq_refl eq_refl eq_refl eq_refl) as [Hput _].
  split.
  - apply (Hput "a" (-2)); [apply list_elem_of_In; simpl; auto | lia].
  - apply (Hput "b" 0); [apply list_elem_of_In; simpl; auto | lia].
Defined.

(** * Beyond the specification

    Properties of the same functions that the specification does not
    state. *)

(** ** Trimming *)

Lemma append_nil_l (s : string) : "" +:+ s = s.
Proof. reflexivity. Qed.

Lemma append_cons (c : ascii) (s t : string) :
  String c s +:+ t = String c (s +:+ t).
Proof. reflexivity. Qed.

Lemma append_nil_r (s : string) : s +:+ "" = s.
Proof.
  induction s as [|c s IH]; [done|]. by rewrite append_cons, IH.
Qed.

Lemma append_assoc (s1 s2 s3 : string) :
  (s1 +:+ s2) +:+ s3 = s1 +:+ (s2 +:+ s3).
Proof.
  induction s1 as [|c s1 IH]; [done|]. by rewrite !append_cons, IH.
Qed.

Lemma rev_app_append (s1 s2 : string) :
  String.rev_app s1 s2 = String.rev s1 +:+ s2.
Proof.
  unfold String.rev. revert s2.
  induction s1 as [|c s1 IH]; intros s2; simpl; [done|].
  rewrite (IH (String c s2)), (IH (String c "")), append_assoc. done.
Qed.

Lemma rev_cons (c : ascii) (s : string) :
  String.rev (String c s) = String.rev s +:+ String c "".
Proof. unfold String.rev at 1. simpl. apply rev_app_append. Qed.

Lemma rev_append (s1 s2 : string) :
  String.rev (s1 +:+ s2) = String.rev s2 +:+ String.rev s1.
Proof.
  induction s1 as [|c s1 IH].
  - change (String.rev "") with "". by rewrite append_nil_l, append_nil_r.
  - by rewrite append_cons, !rev_cons, IH, append_assoc.
Qed.

Lemma rev_involutive (s : string) : String.rev (String.rev s) = s.
Proof.
  induction s as [|c s IH]; [done|].
  by rewrite rev_cons, rev_append, IH.
Qed.

Lemma all_space_append (s1 s2 : string) :
  all_space (s1 +:+ s2) = all_space s1 && all_space s2.
Proof.
  induction s1 as [|c s1 IH]; [done|].
  rewrite append_cons. simpl. by rewrite IH, andb_assoc.
Qed.

Lemma all_space_rev (s : string) : all_space (String.rev s) = all_space s.
Proof.
  induction s as [|c s IH]; [done|].
  rewrite rev_cons, all_space_append, IH. simpl.
  by rewrite andb_true_r, andb_comm.
Qed.



Lemma lstrip_all_space (l s : string) :
  all_space l = true → Py.lstrip (l +:+ s) = Py.lstrip s.
Proof.
  induction l as [|c l IH]; [done|]. rewrite append_cons. simpl.
  intros [Hc Hl]%andb_prop. rewrite Hc. by apply IH.
Qed.

Lemma lstrip_blank (s : string) :
  all_space s = true → Py.lstrip s = "".
Proof.
  intros Hs. rewrite <- (append_nil_r s). by rewrite lstrip_all_space.
Qed.

Lemma lstrip_not_blank (s t : string) :
  all_space s = false → Py.lstrip (s +:+ t) = Py.lstrip s +:+ t.
Proof.
  induction s as [|c s IH]; [done|]. rewrite append_cons. simpl.
  destruct (Py.isspace c); simpl; [done|done].
Qed.

(** What [lstrip] removes is white space, and only from the front. *)
Lemma lstrip_decompose (s : string) :
  ∃ l, all_space l = true ∧ s = l +:+ Py.lstrip s.
Proof.
  induction s as [|c s (l & Hl & IH)]; simpl.
  - by exists "".
  - destruct (Py.isspace c) eqn:Hc.
    + exists (String c l). simpl. rewrite Hc, Hl, append_cons.
      by rewrite <- IH.
    + by exists "".
Qed.

Lemma rstrip_decompose (s : string) :
  ∃ r, all_space r = true ∧ s = Py.rstrip s +:+ r.
Proof.
  destruct (lstrip_decompose (String.rev s)) as (l & Hl & Hs).
  exists (String.rev l). split; [by rewrite all_space_rev|].
  unfold Py.rstrip. rewrite <- rev_append, <- Hs. by rewrite rev_involutive.
Qed.

Lemma rstrip_all_space (s r : string) :
  all_space r = true → Py.rstrip (s +:+ r) = Py.rstrip s.
Proof.
  intros Hr. unfold Py.rstrip.
  by rewrite rev_append, lstrip_all_space by (by rewrite all_space_rev).
Qed.

(** White space around a text does not change what [strip] returns. *)
Lemma strip_padding (l s r : string) :
  all_space l = true → all_space r = true →
  Py.strip (l +:+ s +:+ r) = Py.strip s.
Proof.
  intros Hl Hr. unfold Py.strip. rewrite lstrip_all_space by done.
  destruct (all_space s) eqn:Hs.
  - rewrite !lstrip_blank; [done|done|].
    by rewrite all_space_append, Hs, Hr.
  - by rewrite lstrip_not_blank, rstrip_all_space.
Qed.

Lemma strip_decompose (s : string) :
  ∃ l r, all_space l = true ∧ all_space r = true
         ∧ s = l +:+ Py.strip s +:+ r.
Proof.
  destruct (lstrip_decompose s) as (l & Hl & Hs).
  destruct (rstrip_decompose (Py.lstrip s)) as (r & Hr & Ht).
  exists l, r. split; [done|]. split; [done|].
  unfold Py.strip. by rewrite <- Ht.
Qed.

Lemma strip_idempotent (s : string) : Py.strip (Py.strip s) = Py.strip s.
Proof.
  destruct (strip_decompose s) as (l & r & Hl & Hr & Hs).
  rewrite Hs at 2. by rewrite strip_padding.
Qed.


(** ** Reading back a printed integer *)











Lemma strip_blank_iff (s : string) :
  Py.strip s = "" ↔ all_space s = true.
Proof.
  split.
  - intros Hs. destruct (strip_decompose s) as (l & r & Hl & Hr & Heq).
    rewrite Heq, Hs, !all_space_append, Hl, Hr. done.
  - intros Hs. unfold Py.strip. by rewrite lstrip_blank.
Qed.



(** X2. White space around the text of a value changes nothing, and the
    texts read as no value at all are exactly the blank ones. *)
Theorem parse_ignores_surrounding_space (l s r : string) :
  all_space l = true → all_space r = true →
  parse_int_or_none (Some (l +:+ s +:+ r)) = parse_int_or_none (Some s)
  ∧ (parse_int_or_none (Some s) = Ok None ↔ all_space s = true).
Proof.
  intros Hl Hr. unfold parse_int_or_none. split.
  - by rewrite strip_padding.
  - rewrite <- strip_blank_iff.
    destruct (String.eqb_spec (Py.strip s) "") as [Hs|Hs]; [done|].
    destruct (Py.int (Py.strip s)); split; done.
Qed.

Lemma parse_ignores_surrounding_space_witness :
  parse_int_or_none (Some ("  " +:+ "-1" +:+ " ")) = Ok (Some (-1)).
Proof.
  destruct (parse_ignores_surrounding_space "  " "-1" " " eq_refl eq_refl)
    as [Hpad _].
  rewrite Hpad. reflexivity.
Defined.

(** ** How target resolution fails, and what it returns *)

Lemma read_rows_raise args rv reader rows x :
  read_rows args rv reader rows = Raise x →
  rv = true
  ∧ ∃ parts text,
      parts ∈ reader ∧ spec_excluded parts = false
      ∧ row_text parts = Some text
      ∧ Py.int (Py.strip text) = None
      ∧ x = SystemExit (Text (InvalidConcurrency (Py.strip text))).
Proof.
  revert rows. induction reader as [|parts reader IH]; intros rows; simpl.
  - done.
  - assert (Hrest : ∀ rows',
      read_rows args rv reader rows' = Raise x →
      rv = true
      ∧ ∃ parts' text,
          parts' ∈ parts :: reader ∧ spec_excluded parts' = false
          ∧ row_text parts' = Some text
          ∧ Py.int (Py.strip text) = None
          ∧ x = SystemExit (Text (InvalidConcurrency (Py.strip text)))).
    { intros rows' Hr. destruct (IH _ Hr) as (-> & p & t & Hin & H).
      split; [done|]. exists p, t. split; [by apply list_elem_of_further|].
      done. }
    destruct parts as [|fn more]; [by apply Hrest|].
    unfold add_row. rewrite (skipped_spec_excluded fn more).
    destruct (spec_excluded (fn :: more)) eqn:Hex; simpl; [by apply Hrest|].
    destruct rv; simpl; [|by apply Hrest].
    unfold parse_int_or_none.
    destruct (head more) as [text|] eqn:Hhead; simpl; [|by apply Hrest].
    destruct (String.eqb (Py.strip text) ""); simpl; [by apply Hrest|].
    destruct (Py.int (Py.strip text)) eqn:Hint; simpl; [by apply Hrest|].
    intros [= <-]. split; [done|]. exists (fn :: more), text.
    split; [by apply list_elem_of_here|]. done.
Qed.

Lemma iter_targets_Ok_rows args env rv ts :
  iter_targets args env rv = Ok ts →
  ∃ reader, input_rows args env = Ok reader.
Proof.
  rewrite iter_targets_rows. destruct (input_rows args env); [eauto|done].
Qed.

Lemma input_rows_raise args env x :
  input_rows args env = Raise x →
  ∃ path, file args = Some path ∧ path ≠ "" ∧ path ≠ "-"
          ∧ open_rows env path = None ∧ x = Unhandled (OSError path).
Proof.
  unfold input_rows. destruct (file args) as [path|]; simpl; [|done].
  destruct (Py.truthy path) eqn:Ht; [|done].
  destruct (String.eqb_spec path "-") as [|Hd]; [done|].
  destruct (open_rows env path) eqn:Ho; [done|]. intros [= <-].
  exists path. repeat split; try done. by intros ->.
Qed.

Lemma iter_targets_raise_shape args env rv x :
  iter_targets args env rv = Raise x →
  (∃ path, x = Unhandled (OSError path))
  ∨ (∃ s, x = SystemExit (Text (InvalidConcurrency s)))
  ∨ x = SystemExit (Text NoFunctionNames).
Proof.
  rewrite iter_targets_rows.
  destruct (input_rows args env) as [reader|e] eqn:Hrows; simpl.
  - destruct (read_rows args rv reader []) as [rows|e] eqn:Hread; simpl.
    + destruct rows; [|done]. intros [= <-]. by right; right.
    + intros [= <-].
      destruct (read_rows_raise _ _ _ _ _ Hread)
        as (_ & p & t & _ & _ & _ & _ & ->).
      right. left. eauto.
  - intros [= <-].
    destruct (input_rows_raise _ _ _ Hrows) as (p & _ & _ & _ & _ & ->).
    left. eauto.
Qed.

(** With values read, the first row taken in whose value is no integer
    ends the loop, on the message that names its trimmed text. *)
Lemma read_rows_first_bad args reader rows :
  forallb value_ok (spec_included reader) = false →
  ∃ pre parts post text,
    spec_included reader = pre ++ parts :: post
    ∧ forallb value_ok pre = true
    ∧ row_text parts = Some text
    ∧ Py.strip text ≠ ""
    ∧ Py.int (Py.strip text) = None
    ∧ read_rows args true reader rows
      = Raise (SystemExit (Text (InvalidConcurrency (Py.strip text)))).
Proof.
  revert rows. induction reader as [|row reader IH]; intros rows; [done|].
  rewrite spec_included_cons. destruct row as [|fn more]; [by apply IH|].
  simpl read_rows. unfold add_row.
  rewrite (skipped_spec_excluded fn more).
  destruct (spec_excluded (fn :: more)); simpl; [by apply IH|].
  unfold value_ok at 1, row_text at 1. simpl.
  destruct (parse_int_or_none (head more)) as [per_row|x] eqn:Hparse; simpl.
  - intros Hrest.
    assert (Hstep : ∀ rows',
      ∃ pre parts post text,
        (fn :: more) :: spec_included reader = pre ++ parts :: post
        ∧ forallb value_ok pre = true
        ∧ row_text parts = Some text
        ∧ Py.strip text ≠ ""
        ∧ Py.int (Py.strip text) = None
        ∧ read_rows args true reader rows'
          = Raise (SystemExit (Text (InvalidConcurrency (Py.strip text))))).
    { intros rows'.
      destruct (IH rows' Hrest)
        as (pre & parts & post & text & Heq & Hpre & Htext & Hne & Hint & Hr).
      exists ((fn :: more) :: pre), parts, post, text.
      rewrite Heq. split; [done|]. split; [|done].
      simpl. unfold value_ok at 1, row_text. simpl.
      by rewrite Hparse. }
    destruct per_row; apply Hstep.
  - intros _. unfold parse_int_or_none in Hparse.
    destruct (head more) as [text|] eqn:Hhead; [|done].
    destruct (String.eqb_spec (Py.strip text) "") as [|Hne]; [done|].
    destruct (Py.int (Py.strip text)) eqn:Hint; [done|].
    injection Hparse as <-.
    exists [], (fn :: more), (spec_included reader), text.
    by repeat split.
Qed.

(** X3. Over the rows the reader yields, target resolution ends on the
    message about missing names exactly when no row is taken in; without
    values read it never ends on the message about a value; with values
    read, the first row taken in whose text is no integer ends it, on
    the message that names the trimmed text, whatever the rows after it
    hold. *)
Theorem first_malformed_value_ends_resolution args env reader :
  input_rows args env = Ok reader →
  (∀ rv, iter_targets args env rv = Raise (SystemExit (Text NoFunctionNames))
         ↔ spec_included reader = [])
  ∧ (∀ s, iter_targets args env false
          ≠ Raise (SystemExit (Text (InvalidConcurrency s))))
  ∧ (forallb value_ok (spec_included reader) = false →
     ∃ pre parts post text,
       spec_included reader = pre ++ parts :: post
       ∧ forallb value_ok pre = true
       ∧ row_text parts = Some text
       ∧ Py.strip text ≠ ""
       ∧ Py.int (Py.strip text) = None
       ∧ iter_targets args env true
         = Raise (SystemExit (Text (InvalidConcurrency (Py.strip text))))).
Proof.
  intros Hrows. split; [|split].
  - intros rv. split.
    + intros Ht.
      destruct (if rv then forallb value_ok (spec_included reader) else true)
        eqn:Hok.
      * rewrite (iter_targets_spec _ _ _ _ Hrows Hok) in Ht.
        apply (spec_targets_nil args rv).
        by destruct (spec_targets args rv reader).
      * destruct rv; [|done].
        rewrite iter_targets_rows, Hrows in Ht. simpl in Ht.
        destruct (read_rows_bad_value args reader [] Hok) as [s Hs].
        by rewrite Hs in Ht.
    + intros Hnil. rewrite (iter_targets_spec _ _ _ _ Hrows).
      * by rewrite (proj2 (spec_targets_nil _ _ _) Hnil).
      * rewrite Hnil. by destruct rv.
  - intros s. rewrite (iter_targets_spec _ _ false _ Hrows eq_refl).
    by destruct (spec_targets args false reader).
  - intros Hbad.
    destruct (read_rows_first_bad args reader [] Hbad)
      as (pre & parts & post & text & Heq & Hpre & Htext & Hne & Hint & Hr).
    exists pre, parts, post, text. repeat split; try done.
    rewrite iter_targets_rows, Hrows. simpl. by rewrite Hr.
Qed.

Lemma first_malformed_value_ends_resolution_witness :
  iter_targets Sample.remove_header_like Sample.no_input true
  = Raise (SystemExit (Text NoFunctionNames))
  ∧ ∃ text,
      Py.int (Py.strip text) = None
      ∧ iter_targets Sample.set_file Sample.mixed_rows true
        = Raise (SystemExit (Text (InvalidConcurrency (Py.strip text)))).
Proof.
  split.
  - destruct (first_malformed_value_ends_resolution
                Sample.remove_header_like Sample.no_input
                [[" Function-A"]] eq_refl) as (Hnone & _ & _).
    apply (Hnone true). reflexivity.
  - destruct (first_malformed_value_ends_resolution Sample.set_file
                Sample.mixed_rows (stdin_rows Sample.mixed_rows) eq_refl)
      as (_ & _ & Hbad).
    destruct (Hbad eq_refl)
      as (pre & parts & post & text & _ & _ & _ & _ & Hint & Hr).
    exists text. split; [exact Hint | exact Hr].
Defined.

(** X4. What target resolution returns is never empty, and every name in
    it is trimmed, not empty and not header-like.  Without values read
    every value is absent; with values read a value is absent only when
    there is no [--concurrency], so that with a default no target lacks
    a value. *)
Theorem targets_are_clean args env rv ts :
  iter_targets args env rv = Ok ts →
  ts ≠ []
  ∧ Forall (fun t : Target =>
              t.1 ≠ "" ∧ Py.strip t.1 = t.1
              ∧ Py.startswith (Py.lower t.1) "function" = false
              ∧ (rv = false → t.2 = None)
              ∧ (t.2 = None → rv = false ∨ concurrency args = None)) ts
  ∧ (rv = true → concurrency args ≠ None → missing ts = []).
Proof.
  intros Ht. destruct (iter_targets_Ok_rows _ _ _ _ Ht) as [reader Hrows].
  destruct (iter_targets_Ok_inv _ _ _ _ _ Hrows Ht) as (-> & Hne & _).
  split; [done|].
  assert (HF : Forall (fun t : Target =>
              t.1 ≠ "" ∧ Py.strip t.1 = t.1
              ∧ Py.startswith (Py.lower t.1) "function" = false
              ∧ (rv = false → t.2 = None)
              ∧ (t.2 = None → rv = false ∨ concurrency args = None))
            (spec_targets args rv reader)).
  { unfold spec_targets. apply Forall_fmap, Forall_forall.
    intros parts [Hex _]%list_elem_of_filter. simpl.
    unfold spec_excluded in Hex. destruct parts as [|fn more]; [done|].
    apply orb_false_elim in Hex as [Hempty Hhead].
    split; [by apply String.eqb_neq|].
    split; [apply strip_idempotent|]. split; [done|]. split.
    - by intros ->.
    - destruct rv; [|by left]. unfold spec_value.
      destruct (parse_int_or_none _) as [[v|]|]; auto; done. }
  split; [done|]. intros -> Hc.
  destruct (missing (spec_targets args true reader)) as [|fn l] eqn:Hm;
    [done|].
  assert (Hin : fn ∈ missing (spec_targets args true reader))
    by (rewrite Hm; apply list_elem_of_here).
  apply missing_names in Hin.
  rewrite Forall_forall in HF.
  destruct (HF _ Hin) as (_ & _ & _ & _ & Hv).
  by destruct (Hv eq_refl).
Qed.

Lemma targets_are_clean_witness :
  missing [("a", Some 5); ("b", Some 3); ("c", Some (-1))] = [].
Proof.
  destruct (targets_are_clean Sample.set_args Sample.three_rows true
              [("a", Some 5); ("b", Some 3); ("c", Some (-1))] eq_refl)
    as (_ & _ & Hm).
  apply Hm; [reflexivity | discriminate].
Defined.

(** ** How a run ends *)

Lemma show_results_exit_cases done out :
  (forallb (fun kr : string * (Exn + string * string) =>
              negb (raised kr.2)) done = true
   ∧ (show_results done out).2 = Returned)
  ∨ (forallb (fun kr : string * (Exn + string * string) =>
                negb (raised kr.2)) done = false
     ∧ ∃ k e, (k, inl e) ∈ done
              ∧ (show_results done out).2 = Raising (Unhandled e)).
Proof.
  revert out. induction done as [|[k [e|[fn status]]] done IH];
    intros out; simpl.
  - by left.
  - right. split; [done|]. exists k, e. split; [apply list_elem_of_here|done].
  - destruct (IH (out ++ ["[SHOW  ] " +:+ fn +:+ ": " +:+ status]))
      as [?|(Hf & k' & e & Hin & Hx)]; [by left|].
    right. split; [done|]. exists k', e.
    split; [by apply list_elem_of_further|done].
Qed.

Lemma main_show_eq {CS} (sdk : CS → Call → CS * Response) args env sched
    (w : World CS) ts :
  show args = true →
  iter_targets args env false = Ok ts →
  main sdk args env sched w
  = (let (w', done) :=
       pool sched
         (map (fun t : Target =>
                 (get_reserved_concurrency sdk t.1, t.1)) ts) w in
     let (out, x) := show_results done [] in
     {| world := w'; stdout := out; stderr := []; exit := x |}).
Proof. intros Hs Ht. unfold main. by rewrite Hs, Ht. Qed.

(** The ways a run can end, by the mode in effect. *)
Lemma main_exit_cases {CS} (sdk : CS → Call → CS * Response) args env sched
    (w : World CS) :
  let r := main sdk args env sched w in
  (mode_of args = None
   ∧ r = stop w (SystemExit (Text ExactlyOneMode)))
  ∨ (∃ mode, mode_of args = Some mode
       ∧ (exit r = Returned
          ∨ exit r = Raising (SystemExit (Status 1))
          ∨ (∃ s, exit r = Raising (SystemExit (Text (InvalidConcurrency s))))
          ∨ exit r = Raising (SystemExit (Text NoFunctionNames))
          ∨ (∃ s, exit r = Raising (SystemExit (Text (MissingValues s))))
          ∨ (∃ e, exit r = Raising (Unhandled e)))).
Proof.
  intros r. subst r.
  destruct (mode_of args) as [mode|] eqn:Hmode.
  2: { left. split; [done|]. by apply main_no_mode. }
  right. exists mode. split; [done|].
  destruct (iter_targets args env (reads_values mode)) as [ts|x] eqn:Ht.
  2: { rewrite (main_raise sdk _ _ _ _ _ _ Hmode Ht). simpl.
       destruct (iter_targets_raise_shape _ _ _ _ Ht)
         as [[p ->]|[[s ->]| ->]]; eauto 10. }
  destruct (decide (mode = "set" ∧ missing ts ≠ [])) as [[-> Hm]|Hm].
  { rewrite (main_missing sdk _ _ _ _ _ Hmode Ht Hm). simpl. eauto 10. }
  assert (Hm' : mode = "set" → missing ts = []).
  { intros ->. destruct (missing ts) eqn:E; [done|]. destruct Hm. done. }
  destruct (decide (mode = "show")) as [-> | Hns].
  { rewrite (main_show_eq sdk _ _ _ _ ts (mode_of_show _ Hmode) Ht).
    destruct (pool sched _ w) as [w' done].
    destruct (show_results_exit_cases done [])
      as [[_ Hx]|(_ & k & e & _ & Hx)];
      destruct (show_results done []) as [out x]; simpl in *; subst x;
      eauto 10. }
  destruct (dry_run args) eqn:Hd.
  - rewrite (main_dry sdk _ _ _ _ _ _ Hmode Hns Hd Ht Hm'). by left.
  - destruct (main_live sdk args env sched w mode ts Hmode
                (or_intror Hd) Ht Hm') as (_ & _ & H3 & _).
    rewrite (H3 Hns). destruct (any_failed _); auto.
Qed.

Lemma mode_of_None_iff args :
  mode_of args = None ↔
  show args = false
  ∧ (Nat.b2n (remove args) + Nat.b2n (throttle args)
     + Nat.b2n (do_set args) ≠ 1)%nat.
Proof.
  unfold mode_of, chosen, mode_flags.
  destruct (show args), (remove args), (throttle args), (do_set args);
    vm_compute; split; try done; intros [? H]; try done; by destruct H.
Qed.

(** X6. Without [--show] exactly one of [--remove], [--throttle] and
    [--set] must be given: the run ends on the message about modes if and
    only if there is none or more than one, and then it has read no input,
    made no call and printed nothing. *)
Theorem exactly_one_mode_required {CS} (sdk : CS → Call → CS * Response)
    args env sched (w : World CS) :
  let r := main sdk args env sched w in
  (exit r = Raising (SystemExit (Text ExactlyOneMode)) ↔
   show args = false
   ∧ (Nat.b2n (remove args) + Nat.b2n (throttle args)
      + Nat.b2n (do_set args) ≠ 1)%nat)
  ∧ (exit r = Raising (SystemExit (Text ExactlyOneMode)) →
     r = stop w (SystemExit (Text ExactlyOneMode))).
Proof.
  intros r. subst r. rewrite <- mode_of_None_iff.
  destruct (main_exit_cases sdk args env sched w)
    as [[Hn ->]|(mode & Hm & H)].
  - done.
  - rewrite Hm. split; [split; [|done]|]; intros Hx; rewrite Hx in H;
      destruct H as [H|[H|[[s H]|[H|[[s H]|[e H]]]]]]; done.
Qed.

Lemma exactly_one_mode_required_witness :
  main Sample.sdk Inputs.no_mode Sample.no_input fifo Sample.two_functions
  = stop Sample.two_functions (SystemExit (Text ExactlyOneMode)).
Proof.
  destruct (exactly_one_mode_required Sample.sdk Inputs.no_mode
              Sample.no_input fifo Sample.two_functions) as [_ H].
  apply H. reflexivity.
Defined.

(** X7. In Remove mode every target gets a delete (a dry run prints it);
    the targets are the names of the rows taken in, whatever else the rows
    carry. *)
Theorem remove_deletes_every_target {CS} (sdk : CS → Call → CS * Response)
    args env sched (w : World CS) reader :
  mode_of args = Some "remove" →
  input_rows args env = Ok reader →
  spec_included reader ≠ [] →
  let r := main sdk args env sched w in
  let names := row_name <$> spec_included reader in
  if dry_run args
  then issued w r = []
       ∧ stdout r = (fun fn => "[DRYRUN REMOVE] " +:+ fn) <$> names
  else (issued w r).*1 ≡ₚ Delete <$> names.
Proof.
  intros Hmode Hrows Hne r names. subst r names.
  assert (Ht : iter_targets args env (reads_values "remove")
               = Ok (spec_targets args false reader)).
  { change (reads_values "remove") with false.
    rewrite (iter_targets_spec _ _ false _ Hrows) by done.
    destruct (spec_targets args false reader) eqn:E; [|done].
    by apply spec_targets_nil in E. }
  destruct (dry_run args) eqn:Hd.
  - rewrite (main_dry sdk _ _ _ _ "remove" _ Hmode) by done.
    split; [apply issued_printed|]. simpl.
    unfold dry_lines, spec_targets. simpl.
    by rewrite <- !list_fmap_compose.
  - destruct (main_live sdk args env sched w "remove" _ Hmode
                (or_intror Hd) Ht) as (_ & H2 & _); [done|].
    rewrite H2, planned_remove. unfold spec_targets.
    by rewrite <- !list_fmap_compose.
Qed.

Lemma remove_deletes_every_target_witness :
  (issued Sample.two_functions
     (main Sample.sdk Inputs.remove_stdin Inputs.names_with_values fifo
        Sample.two_functions)).*1
  ≡ₚ [Delete "a"; Delete "b"].
Proof.
  exact (remove_deletes_every_target Sample.sdk Inputs.remove_stdin
           Inputs.names_with_values fifo Sample.two_functions
           (stdin_rows Inputs.names_with_values) eq_refl eq_refl
           ltac:(vm_compute; discriminate)).
Defined.

(** X8. A name given by [--function] that passes the header test is the
    one target, trimmed; it has no value of its own, so that Set mode
    gives it the default of [--concurrency] and, without a default, ends
    on the message about the missing value, naming it. *)
Theorem single_function_is_one_target {CS}
    (sdk : CS → Call → CS * Response) args env sched (w : World CS) name :
  function args = Some name →
  file args = None →
  skipped (Py.strip name) = false →
  let r := main sdk args env sched w in
  iter_targets args env false = Ok [(Py.strip name, None)]
  ∧ iter_targets args env true = Ok [(Py.strip name, concurrency args)]
  ∧ (mode_of args = Some "set" →
     match concurrency args with
     | None =>
         exit r = Raising (SystemExit
                             (Text (MissingValues (Py.strip name))))
         ∧ issued w r = []
     | Some v =>
         dry_run args = false →
         (issued w r).*1 = [set_action (Py.strip name, v)]
     end).
Proof.
  intros Hf Hfile Hskip r. subst r.
  assert (Ht : ∀ rv, iter_targets args env rv
                     = Ok [(Py.strip name,
                            if rv then concurrency args else None)]).
  { intros rv. unfold iter_targets. rewrite Hf, Hfile. simpl.
    destruct name as [|c name]; [done|]. simpl.
    unfold add_row. rewrite Hskip. by destruct rv. }
  split; [apply (Ht false)|]. split; [apply (Ht true)|].
  intros Hmode. destruct (concurrency args) as [v|] eqn:Hc.
  - intros Hd.
    destruct (main_live sdk args env sched w "set" _ Hmode
                (or_intror Hd) (Ht true)) as (_ & H2 & _); [done|].
    by apply Permutation_singleton_r in H2.
  - rewrite (main_missing sdk _ _ _ _ _ Hmode (Ht true)) by done.
    split; [|apply issued_stop]. simpl.
    unfold miss_str, missing. simpl. by rewrite append_nil_r.
Qed.

Lemma single_function_is_one_target_witness :
  iter_targets Inputs.set_a7 Sample.no_input true = Ok [("a", Some 7)]
  ∧ (issued Sample.two_functions
       (main Sample.sdk Inputs.set_a7 Sample.no_input fifo
          Sample.two_functions)).*1 = [Put "a" 7].
Proof.
  destruct (single_function_is_one_target Sample.sdk Inputs.set_a7
              Sample.no_input fifo Sample.two_functions " a "
              eq_refl eq_refl eq_refl) as (_ & Ht & Hrun).
  split; [exact Ht | exact (Hrun eq_refl eq_refl)].
Defined.

(** X9. A file that cannot be opened is not handled: target resolution
    raises the error of [open], and the run ends with status 1 before any
    call, with nothing printed. *)
Theorem unreadable_file_is_unhandled {CS} (sdk : CS → Call → CS * Response)
    args env sched (w : World CS) path :
  file args = Some path →
  path ≠ "" → path ≠ "-" →
  open_rows env path = None →
  let r := main sdk args env sched w in
  (∀ rv, iter_targets args env rv = Raise (Unhandled (OSError path)))
  ∧ (mode_of args ≠ None →
     r = stop w (Unhandled (OSError path))
     ∧ exit_status (exit r) = 1 ∧ issued w r = []).
Proof.
  intros Hfile Hne Hdash Hopen r. subst r.
  assert (Ht : ∀ rv, iter_targets args env rv
                     = Raise (Unhandled (OSError path))).
  { intros rv. rewrite iter_targets_rows. unfold input_rows.
    rewrite Hfile. simpl.
    apply String.eqb_neq in Hdash. rewrite Hdash, Hopen.
    by destruct path. }
  split; [done|]. intros Hmode.
  destruct (mode_of args) as [mode|] eqn:Hm; [|done].
  rewrite (main_raise sdk _ _ _ _ _ _ Hm (Ht _)).
  by rewrite issued_stop.
Qed.

Lemma unreadable_file_is_unhandled_witness :
  main Sample.sdk Inputs.remove_file Sample.no_input fifo
    Sample.two_functions
  = stop Sample.two_functions (Unhandled (OSError "funcs.csv")).
Proof.
  destruct (unreadable_file_is_unhandled Sample.sdk Inputs.remove_file
              Sample.no_input fifo Sample.two_functions "funcs.csv"
              eq_refl ltac:(discriminate) ltac:(discriminate) eq_refl)
    as [_ H].
  destruct (H ltac:(discriminate)) as [Hr _]. exact Hr.
Defined.

(** ** What a run prints *)

Lemma omap_zip_with_zip {A B C D K} (f : A → B → C) (g : C → option D)
    (k : A → K) (h : K * B → option D) (l : list A) (rs : list B) :
  (∀ x y, g (f x y) = h (k x, y)) →
  omap g (zip_with f l rs) = omap h (zip (k <$> l) rs).
Proof.
  intros Hg. revert rs.
  induction l as [|x l IH]; intros [|y rs]; csimpl; try done.
  by rewrite Hg, IH.
Qed.

Lemma stdout_line_failed c e : stdout_line (c, inl e) = None.
Proof. by destruct c. Qed.

Lemma stderr_line_answered mode c o : stderr_line mode (c, inr o) = None.
Proof. by destruct c. Qed.

Lemma write_results_lines {K} (who : K → string)
    (done : list (K * (Exn + string))) out err h :
  (write_results who done out err h).1
  = (out ++ omap (fun kr => match kr.2 with
                            | inr line => Some line
                            | inl _ => None
                            end) done,
     err ++ omap (fun kr => match kr.2 with
                            | inl e => Some ("[ERROR ] " +:+ who kr.1 +:+ ": "
                                             +:+ exn_text e)
                            | inr _ => None
                            end) done).
Proof.
  revert out err h. induction done as [|[k [e|line]] done IH];
    intros out err h; simpl.
  - by rewrite !app_nil_r.
  - rewrite IH. csimpl. by rewrite <- app_assoc.
  - rewrite IH. csimpl. by rewrite <- app_assoc.
Qed.

Lemma show_results_lines done out :
  forallb (fun kr : string * (Exn + string * string) =>
             negb (raised kr.2)) done = true →
  (show_results done out).1
  = out ++ omap (fun kr : string * (Exn + string * string) =>
                   match kr.2 with
                   | inr (fn, status) =>
                       Some ("[SHOW  ] " +:+ fn +:+ ": " +:+ status)
                   | inl _ => None
                   end) done
  ∧ length (show_results done out).1 = (length out + length done)%nat.
Proof.
  revert out. induction done as [|[k [e|[fn status]]] done IH];
    intros out; simpl; try done.
  - intros _. rewrite app_nil_r. split; [done|lia].
  - intros Hd. destruct (IH (out ++ ["[SHOW  ] " +:+ fn +:+ ": " +:+ status])
                           Hd) as [-> ->].
    csimpl. rewrite <- app_assoc, length_app. simpl. split; [done|lia].
Qed.

Section Reports.

Context {CS : Type}.
Variable sdk : CS → Call → CS * Response.

(** A live run of a writing mode prints one line for every call: on the
    output stream when it succeeded, on the error stream when it failed. *)
Lemma write_pool_report {X K} (mk : X → Task string * K)
    (call_of : X → Call) (line : X → string) (who : K → string)
    (mode : string) sched (xs : list X) (w : World CS) :
  (∀ x w, (mk x).1 w
          = ((invoke sdk (call_of x) w).1,
             match (invoke sdk (call_of x) w).2 with
             | inl e => inl e
             | inr _ => inr (line x)
             end)) →
  (∀ x o, stdout_line (call_of x, inr o) = Some (line x)) →
  (∀ x e, stderr_line mode (call_of x, inl e)
          = Some ("[ERROR ] " +:+ who (mk x).2 +:+ ": " +:+ exn_text e)) →
  let r := (let (w', done) := pool sched (mk <$> xs) w in
            finish who w' done) in
  stdout r ≡ₚ omap stdout_line (issued w r)
  ∧ stderr r ≡ₚ omap (stderr_line mode) (issued w r)
  ∧ length (issued w r) = length xs.
Proof.
  intros Hmk Hok Herr.
  destruct (pool_shape sdk mk call_of
              (fun x r => match r with
                          | inl e => inl e
                          | inr _ => inr (line x)
                          end) sched xs w Hmk)
    as (ys & rs & Hperm & Hlen & Htrace & _ & Hdone).
  destruct (pool sched (mk <$> xs) w) as [w' done].
  simpl in Htrace, Hdone. simpl.
  destruct (finish_exit who w' done) as [Hw _].
  assert (Hissued : issued w (finish who w' done) = zip (call_of <$> ys) rs).
  { unfold issued. by rewrite Hw, Htrace, drop_app_length. }
  rewrite Hissued. unfold finish.
  pose proof (write_results_lines who done [] [] false) as Hlines.
  destruct (write_results who done [] [] false) as [[out err] h].
  simpl in Hlines. simpl. injection Hlines as -> ->.
  split; [|split].
  - rewrite Hdone. erewrite omap_zip_with_zip; [done|].
    intros x [e|o]; rewrite ?stdout_line_failed, ?Hok; by simpl.
  - rewrite Hdone. erewrite omap_zip_with_zip; [done|].
    intros x [e|o]; rewrite ?stderr_line_answered, ?Herr; by simpl.
  - rewrite length_zip_with, length_fmap, Hlen, Nat.min_id.
    by rewrite Hperm.
Qed.

(** The show branch prints one line for every read, unless an exception
    other than a [ClientError] came back: that one ends the run. *)
Lemma show_pool_report sched (targets : list Target) (w : World CS) :
  let r := (let (w', done) :=
              pool sched
                (map (fun t : Target =>
                        (get_reserved_concurrency sdk t.1, t.1)) targets) w in
            let (out, x) := show_results done [] in
            {| world := w'; stdout := out; stderr := []; exit := x |}) in
  stderr r = []
  ∧ (only_client_errors (issued w r) = true →
     stdout r ≡ₚ omap show_line (issued w r)
     ∧ length (stdout r) = length targets
     ∧ exit r = Returned)
  ∧ (only_client_errors (issued w r) = false →
     ∃ c e, (c, inl e) ∈ issued w r ∧ is_client_error e = false
            ∧ exit r = Raising (Unhandled e)).
Proof.
  set (post := fun (t : Target) (r : Response) =>
    match r with
    | inr None => inr (t.1, "NONE (unlimited; uses account pool)"%string)
    | inr (Some rce) =>
        if (rce =? 0)%Z then inr (t.1, "0 (DISABLED)"%string)
        else inr (t.1, Py.str rce)
    | inl (ClientError code msg _) =>
        inr (t.1, ("ERROR: " ++ Py.str_opt id code ++ " - "
                   ++ Py.str_opt id msg)%string)
    | inl e => inl e
    end).
  destruct (pool_shape sdk
              (fun t : Target => (get_reserved_concurrency sdk t.1, t.1))
              (fun t => Get t.1) post sched targets w)
    as (ys & rs & Hperm & Hlen & Htrace & _ & Hdone).
  { intros t w0. unfold get_reserved_concurrency, post. simpl.
    by destruct (invoke sdk (Get t.1) w0). }
  change (map ?f targets) with (f <$> targets).
  destruct (pool sched _ w) as [w' done]. simpl in *.
  pose proof (show_results_lines done []) as Hlines.
  pose proof (show_results_exit_cases done []) as Hexit.
  destruct (show_results done []) as [out x]. simpl in *.
  assert (Hissued : issued w {| world := w'; stdout := out; stderr := [];
                                exit := x |}
                    = zip ((fun t : Target => Get t.1) <$> ys) rs).
  { unfold issued. simpl. by rewrite Htrace, drop_app_length. }
  rewrite Hissued.
  assert (Hsame :
    forallb (fun kr : string * (Exn + string * string) =>
               negb (raised kr.2)) done
    = only_client_errors (zip ((fun t : Target => Get t.1) <$> ys) rs)).
  { rewrite (forallb_Permutation _ _ _ Hdone). unfold only_client_errors.
    rewrite (forallb_zip_with _ _
               (fun r : Response => match r with
                                    | inl e => is_client_error e
                                    | inr _ => true
                                    end));
      [| done |].
    - by rewrite (forallb_zip_with _ _
                    (fun r : Response => match r with
                                         | inl e => is_client_error e
                                         | inr _ => true
                                         end))
        by (by rewrite ?length_fmap).
    - intros t [[]|[rce|]]; simpl; try done. by destruct (rce =? 0)%Z. }
  split; [done|]. split.
  - intros Hce. rewrite <- Hsame in Hce.
    destruct (Hlines Hce) as [-> Hl]. split; [|split].
    + simpl. rewrite Hdone. erewrite omap_zip_with_zip; [done|].
      intros t [[]|[rce|]]; simpl; try done. by destruct (rce =? 0)%Z.
    + rewrite Hl. simpl. rewrite (Permutation_length Hdone).
      rewrite length_zip_with, Hlen, Nat.min_id. by rewrite Hperm.
    + destruct Hexit as [[_ ?]|[Hf _]]; [done|congruence].
  - intros Hce. rewrite <- Hsame in Hce.
    destruct Hexit as [[Hf _]|(_ & k & e & Hin & Hx)]; [congruence|].
    rewrite Hdone in Hin.
    apply elem_of_lookup_zip_with in Hin as (i & t & r & Heq & Ht & Hr).
    injection Heq as -> Hpost.
    assert (r = inl e ∧ is_client_error e = false) as [-> Hnc].
    { unfold post in Hpost. destruct r as [[]|[rce|]]; simplify_eq/=;
        try done. by destruct (rce =? 0)%Z. }
    exists (Get t.1), e. split; [|done].
    apply (elem_of_lookup_zip_with_2 pair _ _ (Get t.1) (inl e)
             (Get t.1, inl e) i); [|done].
    by rewrite list_lookup_fmap, Ht.
Qed.

End Reports.

Lemma valued_length (ts : list Target) :
  missing ts = [] → length (valued ts) = length ts.
Proof.
  intros Hm. rewrite <- (missing_nil_valued ts Hm) at 2.
  by rewrite length_fmap.
Qed.

(** X10. A live run of Remove, Throttle or Set mode reports every call
    once: a call that succeeded gives its line on the output stream, a
    call that failed gives its line on the error stream (in Set mode with
    the value of the target), and there are as many calls as targets. *)
Theorem writing_modes_report_every_call {CS}
    (sdk : CS → Call → CS * Response) args env sched (w : World CS)
    mode ts :
  mode_of args = Some mode → mode ≠ "show" →
  dry_run args = false →
  iter_targets args env (reads_values mode) = Ok ts →
  (mode = "set" → missing ts = []) →
  let r := main sdk args env sched w in
  stdout r ≡ₚ omap stdout_line (issued w r)
  ∧ stderr r ≡ₚ omap (stderr_line mode) (issued w r)
  ∧ length (issued w r) = length ts.
Proof.
  intros Hmode Hns Hd Ht Hm r. subst r. unfold reads_values in Ht.
  destruct (mode_of_chosen _ _ Hmode Hns) as [Hs Hc].
  unfold main. rewrite Hs, Hc.
  destruct (chosen_cases _ _ Hc) as [-> | [-> | ->]]; simpl in Ht |- *;
    rewrite Ht, ?Hd.
  - apply (write_pool_report sdk
             (fun t : Target => (delete_concurrency sdk t.1, t.1))
             (fun t => Delete t.1)
             (fun t => "[REMOVE] " +:+ t.1
                       +:+ ": ReservedConcurrency removed")
             id "remove" sched ts w); [|done|done].
    intros t w0. unfold delete_concurrency. simpl.
    by destruct (invoke sdk (Delete t.1) w0).
  - apply (write_pool_report sdk
             (fun t : Target => (set_reserved sdk t.1 0, t.1))
             (fun t => Put t.1 0)
             (fun t => "[SET   ] " +:+ t.1
                       +:+ ": ReservedConcurrency=" +:+ Py.str 0)
             id "throttle" sched ts w); [|done|done].
    intros t w0. unfold set_reserved. simpl.
    by destruct (invoke sdk (Put t.1 0) w0).
  - rewrite Hm by done. rewrite <- (valued_length ts) by auto.
    apply (write_pool_report sdk
             (fun t : string * Z =>
                if (t.2 =? -1)%Z
                then (delete_concurrency sdk t.1, t)
                else (set_reserved sdk t.1 t.2, t))
             set_action
             (fun t => if (t.2 =? -1)%Z
                       then "[REMOVE] " +:+ t.1
                            +:+ ": ReservedConcurrency removed"
                       else "[SET   ] " +:+ t.1
                            +:+ ": ReservedConcurrency=" +:+ Py.str t.2)
             (fun t : string * Z =>
                t.1 +:+ " (target " +:+ Py.str t.2 +:+ ")")
             "set" sched (valued ts) w).
    + intros t w0. unfold set_action, delete_concurrency, set_reserved.
      destruct (t.2 =? -1)%Z; simpl.
      * by destruct (invoke sdk (Delete t.1) w0).
      * by destruct (invoke sdk (Put t.1 t.2) w0).
    + intros t o. unfold set_action. by destruct (t.2 =? -1)%Z.
    + intros [fn v] e. unfold set_action. simpl.
      destruct (Z.eqb_spec v (-1)) as [->|_]; simpl;
        by rewrite !append_assoc.
Qed.

Lemma writing_modes_report_every_call_witness :
  let r := main Sample.sdk Sample.set_args Sample.three_rows fifo
             Sample.two_functions in
  stdout r ≡ₚ ["[SET   ] a: ReservedConcurrency=5";
               "[SET   ] b: ReservedConcurrency=3"]
  ∧ stderr r ≡ₚ ["[ERROR ] c (target -1): An error occurred (ResourceNotFoundException) when calling the DeleteFunctionConcurrency operation: Function not found: c"].
Proof.
  destruct (writing_modes_report_every_call Sample.sdk Sample.set_args
              Sample.three_rows fifo Sample.two_functions "set"
              [("a", Some 5); ("b", Some 3); ("c", Some (-1))]
              eq_refl ltac:(discriminate) eq_refl eq_refl
              (fun _ => eq_refl)) as (Hout & Herr & _).
  split; [exact Hout | exact Herr].
Defined.

(** X11. In Show mode, when no read came back with an exception other
    than a [ClientError], exactly one line is printed per target: the
    setting of the function, "NONE (unlimited; ...)" when it has none,
    "0 (DISABLED)" when it is 0, or the error code and message of the
    [ClientError]; nothing goes to the error stream. *)
Theorem show_prints_one_line_per_read {CS}
    (sdk : CS → Call → CS * Response) args env sched (w : World CS) ts :
  show args = true →
  iter_targets args env false = Ok ts →
  let r := main sdk args env sched w in
  stderr r = []
  ∧ (only_client_errors (issued w r) = true →
     stdout r ≡ₚ omap show_line (issued w r)
     ∧ length (stdout r) = length ts).
Proof.
  intros Hs Ht r. subst r. rewrite (main_show_eq sdk _ _ _ _ ts Hs Ht).
  destruct (show_pool_report sdk sched ts w) as (H1 & H2 & _).
  split; [done|]. intros Hce. by destruct (H2 Hce) as (? & ? & _).
Qed.

Lemma show_prints_one_line_per_read_witness :
  stdout (main Sample.sdk Inputs.show_stdin Inputs.names_only fifo
            Sample.two_functions)
  ≡ₚ ["[SHOW  ] a: NONE (unlimited; uses account pool)"; "[SHOW  ] b: 1"].
Proof.
  destruct (show_prints_one_line_per_read Sample.sdk Inputs.show_stdin
              Inputs.names_only fifo Sample.two_functions
              [("a", None); ("b", None)] eq_refl eq_refl) as [_ H].
  destruct (H eq_refl) as [Hout _]. exact Hout.
Defined.

(** X12. In Show mode every target is read in any case, and the status
    is 0 exactly when every failed read failed with a [ClientError]; any
    other exception is not handled and ends the run with status 1. *)
Theorem show_status_zero_iff_client_errors {CS}
    (sdk : CS → Call → CS * Response) args env sched (w : World CS) ts :
  show args = true →
  iter_targets args env false = Ok ts →
  let r := main sdk args env sched w in
  (issued w r).*1 ≡ₚ (fun t => Get t.1) <$> ts
  ∧ (exit_status (exit r) = 0 ↔ only_client_errors (issued w r) = true)
  ∧ (only_client_errors (issued w r) = false →
     exit_status (exit r) = 1
     ∧ ∃ c e, (c, inl e) ∈ issued w r ∧ is_client_error e = false
              ∧ exit r = Raising (Unhandled e)).
Proof.
  intros Hs Ht r. subst r.
  assert (Hmode : mode_of args = Some "show")
    by (unfold mode_of; by rewrite Hs).
  destruct (main_live sdk args env sched w "show" ts Hmode
              (or_introl eq_refl) Ht) as (_ & Hcalls & _); [done|].
  split; [done|].
  rewrite (main_show_eq sdk _ _ _ _ ts Hs Ht) in *.
  destruct (show_pool_report sdk sched ts w) as (_ & H2 & H3).
  destruct (only_client_errors (issued w _)) eqn:Hce.
  - destruct (H2 eq_refl) as (_ & _ & ->). by repeat split.
  - destruct (H3 eq_refl) as (c & e & Hin & Hnc & ->).
    split; [by split|]. intros _. split; [done|]. eauto.
Qed.

Lemma show_status_zero_iff_client_errors_witness :
  (issued Sample.offline
     (main Sample.sdk Sample.show_f Sample.no_input fifo
        Sample.offline)).*1 ≡ₚ [Get "f"]
  ∧ exit_status
      (exit (main Sample.sdk Sample.show_f Sample.no_input fifo
               Sample.offline)) = 1.
Proof.
  destruct (show_status_zero_iff_client_errors Sample.sdk Sample.show_f
              Sample.no_input fifo Sample.offline [("f", None)]
              eq_refl eq_refl) as (Hcalls & _ & H).
  split; [exact Hcalls | exact (proj1 (H eq_refl))].
Defined.

(** ** What is not looked at *)

Lemma spec_targets_cons args rv parts reader :
  spec_targets args rv (parts :: reader)
  = if spec_excluded parts then spec_targets args rv reader
    else (row_name parts, if rv then spec_value args parts else None)
         :: spec_targets args rv reader.
Proof.
  unfold spec_targets. rewrite spec_included_cons.
  by destruct (spec_excluded parts).
Qed.

Lemma spec_targets_first_column args args' reader reader' :
  take 1 <$> reader = take 1 <$> reader' →
  spec_targets args false reader = spec_targets args' false reader'.
Proof.
  assert (Hfirst : ∀ a rd,
    spec_targets a false rd
    = (fun parts => (row_name parts, None))
        <$> spec_included (take 1 <$> rd)).
  { intros a rd. induction rd as [|parts rd IH]; [done|].
    rewrite fmap_cons, spec_targets_cons, spec_included_cons.
    assert (spec_excluded (take 1 parts) = spec_excluded parts) as ->
      by (by destruct parts).
    destruct (spec_excluded parts); [done|].
    rewrite fmap_cons, IH. by destruct parts. }
  intros Heq. by rewrite (Hfirst args), (Hfirst args'), Heq.
Qed.

(** X13. Outside Set mode neither [--concurrency] nor anything past the
    first column of a row is looked at: a run of Show, Remove or Throttle
    mode is the same run when they change, malformed values included. *)
Theorem values_ignored_outside_set_mode {CS}
    (sdk : CS → Call → CS * Response) args env env' sched (w : World CS)
    mode reader reader' c :
  mode_of args = Some mode → mode ≠ "set" →
  input_rows args env = Ok reader →
  input_rows args env' = Ok reader' →
  take 1 <$> reader = take 1 <$> reader' →
  main sdk (with_concurrency c args) env' sched w
  = main sdk args env sched w.
Proof.
  intros Hmode Hns Hrows Hrows' Hfirst.
  assert (Ht : iter_targets (with_concurrency c args) env' false
               = iter_targets args env false).
  { rewrite (iter_targets_spec args env false reader Hrows eq_refl).
    rewrite (iter_targets_spec (with_concurrency c args) env' false reader')
      by done.
    by rewrite (spec_targets_first_column _ args reader' reader). }
  unfold main. change (show (with_concurrency c args)) with (show args).
  change (chosen (with_concurrency c args)) with (chosen args).
  change (dry_run (with_concurrency c args)) with (dry_run args).
  rewrite Ht. unfold mode_of in Hmode.
  destruct (show args); [done|].
  destruct (chosen args) as [|m [|]] eqn:Hc; try done.
  injection Hmode as ->.
  by destruct (chosen_cases _ _ Hc) as [-> | [-> | ->]].
Qed.

Lemma values_ignored_outside_set_mode_witness :
  main Sample.sdk (with_concurrency None Sample.throttle_args)
    Inputs.mixed_names fifo Sample.two_functions
  = main Sample.sdk Sample.throttle_args Sample.mixed_rows fifo
      Sample.two_functions.
Proof.
  exact (values_ignored_outside_set_mode Sample.sdk Sample.throttle_args
           Sample.mixed_rows Inputs.mixed_names fifo Sample.two_functions
           "throttle" (stdin_rows Sample.mixed_rows)
           (stdin_rows Inputs.mixed_names) None
           eq_refl ltac:(discriminate) eq_refl eq_refl eq_refl).
Defined.

Lemma missing_all_valued {A} (f : A → string) (d : Z) (l : list A) :
  missing ((fun x => (f x, Some d)) <$> l) = [].
Proof.
  unfold missing. induction l as [|x l IH]; [done|].
  rewrite fmap_cons, filter_cons.
  case_decide as Hdec; [by simpl in Hdec|done].
Qed.

Lemma valued_all_valued {A} (f : A → string) (d : Z) (l : list A) :
  valued ((fun x => (f x, Some d)) <$> l) = (fun x => (f x, d)) <$> l.
Proof.
  unfold valued. induction l as [|x l IH]; [done|].
  csimpl. by rewrite IH.
Qed.

(** X14. Set mode over rows that carry no value applies the default of
    [--concurrency] to every name: with -1 the run makes the deletes of
    Remove mode, with any other value the puts of that value (those of
    Throttle mode for 0). *)
Theorem set_mode_with_default_only {CS} (sdk : CS → Call → CS * Response)
    args env sched (w : World CS) reader d :
  mode_of args = Some "set" →
  dry_run args = false →
  input_rows args env = Ok reader →
  spec_included reader ≠ [] →
  concurrency args = Some d →
  Forall (fun parts => parse_int_or_none (row_text parts) = Ok None)
    (spec_included reader) →
  let r := main sdk args env sched w in
  (issued w r).*1
  ≡ₚ (fun fn => if (d =? -1)%Z then Delete fn else Put fn d)
       <$> (row_name <$> spec_included reader).
Proof.
  intros Hmode Hd Hrows Hne Hc Hnone r. subst r.
  assert (Hok : forallb value_ok (spec_included reader) = true).
  { apply forallb_forall. intros p Hp%list_elem_of_In.
    rewrite Forall_forall in Hnone. unfold value_ok.
    by rewrite (Hnone p Hp). }
  assert (Hts : spec_targets args true reader
                = (fun parts => (row_name parts, Some d))
                    <$> spec_included reader).
  { unfold spec_targets. apply Forall_fmap_ext_1.
    eapply Forall_impl; [exact Hnone|]. intros p Hp. simpl.
    unfold spec_value. by rewrite Hp, Hc. }
  assert (Ht : iter_targets args env true
               = Ok ((fun parts => (row_name parts, Some d))
                       <$> spec_included reader)).
  { rewrite (iter_targets_spec _ _ true _ Hrows Hok), Hts.
    destruct (spec_included reader); [done|done]. }
  assert (Hm : missing ((fun parts => (row_name parts, Some d))
                          <$> spec_included reader) = []).
  { apply missing_all_valued. }
  assert (Hv : valued ((fun parts => (row_name parts, Some d))
                         <$> spec_included reader)
               = (fun parts => (row_name parts, d)) <$> spec_included reader).
  { apply valued_all_valued. }
  destruct (main_live sdk args env sched w "set" _ Hmode
              (or_intror Hd) Ht) as (_ & H2 & _); [done|].
  rewrite H2, planned_set, Hv, <- !list_fmap_compose.
  apply Permutation_refl'. by apply list_fmap_ext.
Qed.

Lemma set_mode_with_default_only_witness :
  (issued Sample.two_functions
     (main Sample.sdk Inputs.set_minus_one Inputs.names_only fifo
        Sample.two_functions)).*1
  ≡ₚ [Delete "a"; Delete "b"].
Proof.
  apply (set_mode_with_default_only Sample.sdk Inputs.set_minus_one
           Inputs.names_only fifo Sample.two_functions
           (stdin_rows Inputs.names_only) (-1)
           eq_refl eq_refl eq_refl ltac:(vm_compute; discriminate) eq_refl).
  repeat constructor.
Defined.

(** ** Calls by mode, and dry runs against live runs *)

(** X15. The calls of a run fit its mode: Remove mode only deletes,
    Throttle mode only puts 0, Set mode deletes or puts a value other than
    -1, no mode but Show reads, and a run without a valid mode makes no
    call. *)
Theorem calls_fit_the_mode {CS} (sdk : CS → Call → CS * Response)
    args env sched (w : World CS) :
  let cs := (issued w (main sdk args env sched w)).*1 in
  (mode_of args = Some "remove" → Forall (fun c => ∃ fn, c = Delete fn) cs)
  ∧ (mode_of args = Some "throttle" →
     Forall (fun c => ∃ fn, c = Put fn 0) cs)
  ∧ (mode_of args = Some "set" →
     Forall (fun c => (∃ fn, c = Delete fn)
                      ∨ (∃ fn v, c = Put fn v ∧ v ≠ -1)) cs)
  ∧ (show args = false → Forall (fun c => is_get c = false) cs)
  ∧ (mode_of args = None → cs = []).
Proof.
  intros cs. subst cs.
  assert (Hcases :
    (issued w (main sdk args env sched w)).*1 = []
    ∨ ∃ mode ts, mode_of args = Some mode
        ∧ (issued w (main sdk args env sched w)).*1 ≡ₚ planned mode ts).
  { destruct (main_calls sdk args env sched w)
      as [(_ & H & _)|[(m & ts & _ & _ & _ & _ & _ & H)
                      |(m & ts & Hm & _ & _ & _ & H)]].
    - left. by rewrite H.
    - left. by rewrite H, issued_printed.
    - right. eauto. }
  assert (Hset : ∀ ts, Forall (fun c => (∃ fn, c = Delete fn)
                         ∨ (∃ fn v, c = Put fn v ∧ v ≠ -1))
                         (set_action <$> valued ts)).
  { intros ts. apply Forall_fmap, Forall_forall. intros [fn v] _.
    unfold set_action. simpl.
    destruct (Z.eqb_spec v (-1)); [left|right]; eauto. }
  repeat split.
  - intros Hmode. destruct Hcases as [->|(m & ts & Hm & ->)]; [done|].
    rewrite Hmode in Hm. injection Hm as <-. rewrite planned_remove.
    apply Forall_fmap, Forall_forall. intros t _. simpl. eauto.
  - intros Hmode. destruct Hcases as [->|(m & ts & Hm & ->)]; [done|].
    rewrite Hmode in Hm. injection Hm as <-. rewrite planned_throttle.
    apply Forall_fmap, Forall_forall. intros t _. simpl. eauto.
  - intros Hmode. destruct Hcases as [->|(m & ts & Hm & ->)]; [done|].
    rewrite Hmode in Hm. injection Hm as <-. rewrite planned_set.
    apply Hset.
  - intros Hs. destruct Hcases as [->|(m & ts & Hm & ->)]; [done|].
    assert (m ≠ "show") as Hns.
    { intros ->. apply mode_of_show in Hm. congruence. }
    destruct (mode_of_chosen _ _ Hm Hns) as [_ Hc].
    destruct (chosen_cases _ _ Hc) as [-> | [-> | ->]].
    + rewrite planned_remove. by apply Forall_fmap, Forall_forall.
    + rewrite planned_throttle. by apply Forall_fmap, Forall_forall.
    + rewrite planned_set. eapply Forall_impl; [apply Hset|].
      intros c [[fn ->]|(fn & v & -> & _)]; done.
  - intros Hmode. destruct Hcases as [->|(m & ts & Hm & _)]; [done|].
    congruence.
Qed.

Lemma calls_fit_the_mode_witness :
  Forall (fun c => ∃ fn, c = Put fn 0)
    (issued Sample.two_functions
       (main Sample.sdk Sample.throttle_args Sample.mixed_rows fifo
          Sample.two_functions)).*1.
Proof.
  destruct (calls_fit_the_mode Sample.sdk Sample.throttle_args
              Sample.mixed_rows fifo Sample.two_functions)
    as (_ & H & _).
  exact (H eq_refl).
Defined.

Lemma iter_targets_with_dry_run b args env rv ts :
  iter_targets args env rv = Ok ts →
  iter_targets (with_dry_run b args) env rv = Ok ts.
Proof.
  intros Ht. destruct (iter_targets_Ok_rows _ _ _ _ Ht) as [reader Hrows].
  destruct (iter_targets_Ok_inv _ _ _ _ _ Hrows Ht) as (-> & Hne & Hok).
  rewrite (iter_targets_spec (with_dry_run b args) env rv reader Hrows Hok).
  change (spec_targets (with_dry_run b args) rv reader)
    with (spec_targets args rv reader).
  by destruct (spec_targets args rv reader).
Qed.

(** X16. A dry run announces the calls of the live run: with [--dry-run]
    the lines printed are, target by target, those of the calls that the
    same command line without the flag makes. *)
Theorem dry_run_announces_the_live_calls {CS}
    (sdk : CS → Call → CS * Response) args env sched sched'
    (w : World CS) mode ts :
  mode_of args = Some mode → mode ≠ "show" →
  iter_targets args env (reads_values mode) = Ok ts →
  (mode = "set" → missing ts = []) →
  let dry := main sdk (with_dry_run true args) env sched w in
  let live := main sdk (with_dry_run false args) env sched' w in
  Some <$> stdout dry = dry_line <$> planned mode ts
  ∧ (issued w live).*1 ≡ₚ planned mode ts
  ∧ issued w dry = [].
Proof.
  intros Hmode Hns Ht Hm dry live. subst dry live.
  assert (Hmode' : ∀ b, mode_of (with_dry_run b args) = Some mode)
    by (intros b; exact Hmode).
  rewrite (main_dry sdk _ _ _ _ mode ts (Hmode' true) Hns eq_refl
             (iter_targets_with_dry_run true _ _ _ _ Ht) Hm).
  destruct (main_live sdk (with_dry_run false args) env sched' w mode ts
              (Hmode' false) (or_intror eq_refl)
              (iter_targets_with_dry_run false _ _ _ _ Ht) Hm)
    as (_ & Hlive & _).
  split; [|split; [done|apply issued_printed]]. simpl.
  destruct (mode_of_chosen _ _ Hmode Hns) as [_ Hc].
  destruct (chosen_cases _ _ Hc) as [-> | [-> | ->]].
  - rewrite planned_remove. unfold dry_lines. simpl.
    by rewrite <- !list_fmap_compose.
  - rewrite planned_throttle. unfold dry_lines. simpl.
    by rewrite <- !list_fmap_compose.
  - rewrite planned_set. unfold dry_lines. simpl.
    rewrite <- !list_fmap_compose. apply list_fmap_ext.
    intros i [fn v] _. unfold set_action. simpl.
    by destruct (v =? -1)%Z.
Qed.

Lemma dry_run_announces_the_live_calls_witness :
  Some <$> stdout (main Sample.sdk (with_dry_run true Sample.set_args)
                     Sample.three_rows fifo Sample.two_functions)
  = [Some "[DRYRUN SET] a -> 5"; Some "[DRYRUN SET] b -> 3";
     Some "[DRYRUN REMOVE] c"]
  ∧ (issued Sample.two_functions
       (main Sample.sdk (with_dry_run false Sample.set_args)
          Sample.three_rows fifo Sample.two_functions)).*1
    ≡ₚ [Put "a" 5; Put "b" 3; Delete "c"].
Proof.
  destruct (dry_run_announces_the_live_calls Sample.sdk Sample.set_args
              Sample.three_rows fifo fifo Sample.two_functions "set"
              [("a", Some 5); ("b", Some 3); ("c", Some (-1))]
              eq_refl ltac:(discriminate) eq_refl (fun _ => eq_refl))
    as (Hdry & Hlive & _).
  split; [exact Hdry | exact Hlive].
Defined.
